(** * Verification of the context-vault browser extension's background layer

    Shallow embedding of [src/background/api-client.ts] (the gateway
    client), [src/background/oauth.ts] (the OAuth tab coordinator) and the
    permission helpers of [src/background/index.ts].

    Asynchrony is modelled by explicit oracles: the outcome of the n-th
    [fetch] of a call is [net n]; browser events of the OAuth coordinator
    are explicit steps of a state machine.  Observable effects (network
    attempts, backoff sleeps, storage writes, permission prompts, tab
    requests) are recorded in traces. *)

From Stdlib Require Import Bool ZArith QArith List String Ascii.
From Stdlib Require Import Numbers.DecimalString Lia.
Import ListNotations.
Open Scope string_scope.

(* ------------------------------------------------------------------ *)
(** ** JavaScript string helpers *)

Module JsString.

Definition ascii_lower (c : ascii) : ascii :=
  let n := nat_of_ascii c in
  if (65 <=? n)%nat && (n <=? 90)%nat then ascii_of_nat (n + 32) else c.

Fixpoint lower (s : string) : string :=
  match s with
  | EmptyString => EmptyString
  | String c s' => String (ascii_lower c) (lower s')
  end.

Fixpoint starts_with (p s : string) : bool :=
  match p, s with
  | EmptyString, _ => true
  | String a p', String b s' => Ascii.eqb a b && starts_with p' s'
  | String _ _, EmptyString => false
  end.

Fixpoint contains (s p : string) : bool :=
  starts_with p s ||
  match s with
  | EmptyString => false
  | String _ s' => contains s' p
  end.

(** [/pat/i.test(s)] for a pattern made of ASCII letters only. *)
Definition test_ci (pat s : string) : bool := contains (lower s) (lower pat).

Definition Z_to_string (z : Z) : string :=
  NilEmpty.string_of_int (Z.to_int z).

(** [s.replace(/\/$/, "")]: drop one trailing slash. *)
Definition strip_trailing_slash (s : string) : string :=
  let n := String.length s in
  match n with
  | O => s
  | S m => if String.eqb (substring m 1 s) "/" then substring 0 m s else s
  end.

End JsString.

Import JsString.

(* ------------------------------------------------------------------ *)
(** ** Errors (the [ErrorCode] enum and the [APIError] class) *)

Inductive ErrorCode :=
| NOT_CONFIGURED | UNAUTHORIZED | RATE_LIMITED
| SERVER_ERROR | NETWORK_ERROR | TIMEOUT.

Definition ErrorCode_eqb (a b : ErrorCode) : bool :=
  match a, b with
  | NOT_CONFIGURED, NOT_CONFIGURED | UNAUTHORIZED, UNAUTHORIZED
  | RATE_LIMITED, RATE_LIMITED | SERVER_ERROR, SERVER_ERROR
  | NETWORK_ERROR, NETWORK_ERROR | TIMEOUT, TIMEOUT => true
  | _, _ => false
  end.

(** Thrown JavaScript values.  Every constructor but [Thrown] is an
    [instanceof Error] (a [DOMException] is one in browsers). *)
Inductive jserr :=
| APIError (message : string) (status : Z) (code : option ErrorCode)
| TypeError (message : string)
| DOMException (name message : string)
| SyntaxError (message : string)
| PlainError (message : string)
| Thrown (as_string : string).

Definition is_Error (e : jserr) : bool :=
  match e with Thrown _ => false | _ => true end.

(** [err instanceof Error ? err.message : String(err)] *)
Definition err_message (e : jserr) : string :=
  match e with
  | APIError m _ _ | TypeError m | DOMException _ m | SyntaxError m
  | PlainError m => m
  | Thrown s => s
  end.

(** [code] and [status] as read by callers of the gateway
    ([(err as any).code], [err.status]); only [APIError] carries them. *)
Definition err_code (e : jserr) : option ErrorCode :=
  match e with APIError _ _ c => c | _ => None end.

Definition err_status (e : jserr) : option Z :=
  match e with APIError _ s _ => Some s | _ => None end.

Definition is_AbortError (e : jserr) : bool :=
  match e with DOMException n _ => String.eqb n "AbortError" | _ => false end.

Definition is_TypeError (e : jserr) : bool :=
  match e with TypeError _ => true | _ => false end.

(** [statusToErrorCode] *)
Definition statusToErrorCode (status : Z) : option ErrorCode :=
  if (status =? 401)%Z then Some UNAUTHORIZED
  else if (status =? 429)%Z then Some RATE_LIMITED
  else if (500 <=? status)%Z then Some SERVER_ERROR
  else None.

(** [friendlyError]; [lastError = undefined] is [None], whose
    [String(undefined)] is ["undefined"]. *)
Definition friendlyError (le : option jserr) : jserr :=
  match le with
  | Some (APIError _ _ _ as e) => e
  | _ =>
    let msg := match le with Some e => err_message e | None => "undefined" end in
    let isNetworkError :=
      (match le with Some e => is_TypeError e | None => false end
         && (test_ci "fetch" msg || test_ci "network" msg))
      || String.eqb msg "Failed to fetch"
      || test_ci "ECONNREFUSED" msg || test_ci "ECONNRESET" msg
      || test_ci "ENOTFOUND" msg in
    if isNetworkError then
      APIError "Could not reach the server. Check your connection and server URL."
        0 (Some NETWORK_ERROR)
    else if test_ci "timed out" msg then APIError msg 0 (Some TIMEOUT)
    else if test_ci "not configured" msg then APIError msg 0 (Some NOT_CONFIGURED)
    else match le with
         | Some e => if is_Error e then e else PlainError msg
         | None => PlainError msg
         end
  end.

(* ------------------------------------------------------------------ *)
(** ** Gateway client state *)

(** [ExtensionSettings] *)
Record Settings := {
  serverUrl : string;
  apiKey : string;
  encryptionSecret : string
}.

(** The durable [chrome.storage.local] keys read or written by the client. *)
Record Storage := {
  st_serverUrl : option string;
  st_apiKey : option string;
  st_encryptionSecret : option string;
  st_rateLimitRemaining : option string;
  st_rateLimitReset : option string
}.

(** [RateLimitState]; JavaScript numbers that passed [Number.isFinite]. *)
Record RateLimitState := {
  remaining : Q;
  resetAt : Q
}.

(** Module-level state of [api-client.ts]. *)
Record Gw := {
  cachedSettings : option Settings;
  cachedRateLimit : option RateLimitState;
  storage : Storage
}.

(** [x || ""] on a stored value. *)
Definition or_empty (o : option string) : string :=
  match o with Some s => s | None => "" end.

(** [getSettings] *)
Definition getSettings (g : Gw) : Gw * Settings :=
  match cachedSettings g with
  | Some s => (g, s)
  | None =>
    let st := storage g in
    let s := {| serverUrl := or_empty (st_serverUrl st);
                apiKey := or_empty (st_apiKey st);
                encryptionSecret := or_empty (st_encryptionSecret st) |} in
    ({| cachedSettings := Some s; cachedRateLimit := cachedRateLimit g;
        storage := st |}, s)
  end.

(** [clearSettingsCache] and [clearRateLimitCache] *)
Definition clearSettingsCache (g : Gw) : Gw :=
  {| cachedSettings := None; cachedRateLimit := cachedRateLimit g;
     storage := storage g |}.

Definition clearRateLimitCache (g : Gw) : Gw :=
  {| cachedSettings := cachedSettings g; cachedRateLimit := None;
     storage := storage g |}.

(** Observable effects of a gateway call, in order.  [EvConfigCheck] and
    [EvPreflight] mark the two guards of [apiFetch] (lines 141-152 and
    154-158 of the source). *)
Inductive Event :=
| EvConfigCheck
| EvPreflight
| EvFetch (url : string) (method : option string)
          (headers : list (string * string)) (body : option string)
| EvSleep (ms : Z)
| EvStore (kvs : list (string * string)).

(** The result of [res.json()].  [JBody v f]: a JSON value other than
    [null], named [v]; [f] is [String(body.error)] when [body.error] is
    truthy and [None] when it is absent or falsy.  [JNull v]: the JSON
    literal [null], named [v].  [JInvalid e]: the body does not parse and
    [res.json()] rejects with [e]. *)
Inductive JsonBody :=
| JBody (v : nat) (error_field : option string)
| JNull (v : nat)
| JInvalid (e : jserr).

(** What the [n]-th [fetch] of a call does: it resolves with a response
    or rejects (network failure: a [TypeError]; timeout: the
    [AbortError] raised by the abort controller). *)
Inductive FetchOutcome :=
| Resp (status : Z) (statusText : string) (body : JsonBody)
       (hRemaining hReset : option string)
| Reject (e : jserr).

(** The settled state of the promise a call returns. *)
Inductive Outcome (A : Type) :=
| Return (v : A)
| Throw (e : jserr).
Arguments Return {A} v.
Arguments Throw {A} e.

(** [RequestInit] as used by the gateway operations. *)
Record RequestInit := {
  method : option string;
  reqBody : option string
}.

Definition RETRY_BACKOFF_MS : list Z := [1000; 3000]%Z.
Definition FETCH_TIMEOUT_MS : Z := 15000.
Definition NO_RETRY_STATUSES : list Z := [401; 429]%Z.

Definition no_retry (s : Z) : bool := existsb (Z.eqb s) NO_RETRY_STATUSES.

(** [res.ok] *)
Definition res_ok (status : Z) : bool := (200 <=? status)%Z && (status <=? 299)%Z.

Definition Qltb (a b : Q) : bool := negb (Qle_bool b a).

Definition backoff (attempt : nat) : Z := nth attempt RETRY_BACKOFF_MS 0%Z.

Section Gateway.

(** [Number(s)] when finite ([None] for NaN and the infinities). *)
Variable js_Number : string -> option Q.
(** [new Date(ms).toLocaleTimeString()] *)
Variable toLocaleTimeString : Q -> string.

(** [updateRateLimitCache] *)
Definition updateRateLimitCache (rem reset : option string) (g : Gw)
  : Gw * list Event :=
  match rem, reset with
  | None, None => (g, [])
  | _, _ =>
    let r := match rem with
             | Some x => js_Number x
             | None => option_map remaining (cachedRateLimit g)
             end in
    let t := match reset with
             | Some x => js_Number x
             | None => match cachedRateLimit g with
                       | Some c => Some (resetAt c)
                       | None => Some 0%Q
                       end
             end in
    let crl := match r, t with
               | Some r', Some t' => Some {| remaining := r'; resetAt := t' |}
               | _, _ => cachedRateLimit g
               end in
    let toStore := app (match rem with Some x => [("rateLimitRemaining", x)] | None => [] end)
                       (match reset with Some x => [("rateLimitReset", x)] | None => [] end) in
    let st := storage g in
    let st' := {| st_serverUrl := st_serverUrl st; st_apiKey := st_apiKey st;
                  st_encryptionSecret := st_encryptionSecret st;
                  st_rateLimitRemaining :=
                    match rem with Some x => Some x | None => st_rateLimitRemaining st end;
                  st_rateLimitReset :=
                    match reset with Some x => Some x | None => st_rateLimitReset st end |} in
    ({| cachedSettings := cachedSettings g; cachedRateLimit := crl; storage := st' |},
     [EvStore toStore])
  end.

(** The message of the [APIError] built for a non-2xx response whose
    body is not [null]: [body.error || `API error: ${res.status}`], where
    an unparsable body reads as [{ error: res.statusText }]. *)
Definition http_error_message (status : Z) (statusText : string) (b : JsonBody)
  : string :=
  let fallback := "API error: " ++ Z_to_string status in
  match b with
  | JBody _ (Some m) => m
  | JInvalid _ => if String.eqb statusText "" then fallback else statusText
  | _ => fallback
  end.

(** [body.error] on a [null] body throws this [TypeError] (V8's message),
    before the [APIError] is built (line 201). *)
Definition null_body_error : jserr :=
  TypeError "Cannot read properties of null (reading 'error')".

Definition sleep_if_more (attempt : nat) : list Event :=
  if (attempt <? List.length RETRY_BACKOFF_MS)%nat then [EvSleep (backoff attempt)] else [].

(** The retry loop of [apiFetch] (lines 186-248).  [n] bounds the number
    of remaining iterations; it starts at [List.length RETRY_BACKOFF_MS + 1],
    so the loop condition [attempt <= RETRY_BACKOFF_MS.length] is what
    ends it. *)
Fixpoint retry_loop (net : nat -> FetchOutcome) (fetchEv : Event)
  (n attempt : nat) (lastError : option jserr) (g : Gw)
  : Gw * list Event * Outcome nat :=
  match n with
  | O => (g, [], Throw (friendlyError lastError))
  | S n' =>
    if negb (attempt <=? List.length RETRY_BACKOFF_MS)%nat then
      (g, [], Throw (friendlyError lastError))
    else
    (* the [catch (err)] block *)
    let catch_ (e : jserr) (le : option jserr) :=
      let '(le1, more) :=
        if is_AbortError e then
          (Some (PlainError ("Request timed out after " ++ Z_to_string FETCH_TIMEOUT_MS ++ "ms")),
           (attempt <? List.length RETRY_BACKOFF_MS)%nat)
        else (le, false) in
      if more then
        let '(g', tr, o) := retry_loop net fetchEv n' (S attempt) le1 g in
        (g', fetchEv :: EvSleep (backoff attempt) :: tr, o)
      else
      match e with
      | APIError _ s _ =>
        if no_retry s then (g, [fetchEv], Throw e) else
        let le2 := Some e in
        let '(g', tr, o) := retry_loop net fetchEv n' (S attempt) le2 g in
        (g', fetchEv :: app (sleep_if_more attempt) tr, o)
      | _ =>
        let le2 := Some (if is_Error e then e else PlainError (err_message e)) in
        let '(g', tr, o) := retry_loop net fetchEv n' (S attempt) le2 g in
        (g', fetchEv :: app (sleep_if_more attempt) tr, o)
      end in
    match net attempt with
    | Reject e => catch_ e lastError
    | Resp status statusText b hrem hreset =>
      if res_ok status then
        let '(g', st) := updateRateLimitCache hrem hreset g in
        (g', fetchEv :: st,
         match b with JBody v _ | JNull v => Return v | JInvalid e => Throw e end)
      else
      match b with
      | JNull _ => catch_ null_body_error lastError
      | _ =>
        let err := APIError (http_error_message status statusText b) status
                            (statusToErrorCode status) in
        if no_retry status then catch_ err lastError
        else if (attempt <? List.length RETRY_BACKOFF_MS)%nat then
          let '(g', tr, o) := retry_loop net fetchEv n' (S attempt) (Some err) g in
          (g', fetchEv :: EvSleep (backoff attempt) :: tr, o)
        else catch_ err (Some err)
      end
    end
  end.

(** [apiFetch(path, options)] at wall-clock time [now] (milliseconds, the
    value of [Date.now()]). *)
Definition apiFetch (net : nat -> FetchOutcome) (now : Z) (path : string)
  (options : RequestInit) (g : Gw) : Gw * list Event * Outcome nat :=
  let '(g1, s) := getSettings g in
  if String.eqb (serverUrl s) "" then
    (g1, [EvConfigCheck],
     Throw (APIError "Not configured — set server URL in extension settings"
                     0 (Some NOT_CONFIGURED)))
  else if String.eqb (apiKey s) "" then
    (g1, [EvConfigCheck],
     Throw (APIError "Not configured — set API key in extension settings"
                     0 (Some NOT_CONFIGURED)))
  else
  let pre :=
  match cachedRateLimit g1 with
  | Some rl =>
    if Qle_bool (remaining rl) 0 && Qltb (now # 1000) (resetAt rl) then
      Some (g1, [EvConfigCheck; EvPreflight],
            Throw (APIError ("Rate limit exhausted. Resets at "
                             ++ toLocaleTimeString (resetAt rl * 1000) ++ ".")
                            429 (Some RATE_LIMITED)))
    else None
  | None => None
  end in
  match pre with
  | Some r => r
  | None =>
    let url := strip_trailing_slash (serverUrl s) ++ path in
    let headers0 := [("Content-Type", "application/json")] in
    let headers1 := if String.eqb (apiKey s) "" then headers0
                    else app headers0 [("Authorization", "Bearer " ++ apiKey s)] in
    let '(g2, s2) := getSettings g1 in
    let headers := if String.eqb (encryptionSecret s2) "" then headers1
                   else app headers1 [("X-Vault-Secret", encryptionSecret s2)] in
    let fetchEv := EvFetch url (method options) headers (reqBody options) in
    let '(g3, tr, o) :=
      retry_loop net fetchEv (S (List.length RETRY_BACKOFF_MS)) 0 None g2 in
    (g3, EvConfigCheck :: EvPreflight :: tr, o)
  end.

End Gateway.

(** The exported gateway operations.  The request body is the
    [JSON.stringify] text the operation builds from its arguments. *)
Inductive Op :=
| searchVault (json : string)
| createEntry (json : string)
| ingestUrl (json : string)
| getVaultStatus.

Definition op_path (op : Op) : string :=
  match op with
  | searchVault _ => "/api/vault/search"
  | createEntry _ => "/api/vault/entries"
  | ingestUrl _ => "/api/vault/ingest"
  | getVaultStatus => "/api/vault/status"
  end.

Definition op_options (op : Op) : RequestInit :=
  match op with
  | searchVault b | createEntry b | ingestUrl b =>
    {| method := Some "POST"; reqBody := Some b |}
  | getVaultStatus => {| method := None; reqBody := None |}
  end.

Definition gatewayCall js_Number toLocaleTimeString (op : Op)
  (net : nat -> FetchOutcome) (now : Z) (g : Gw) : Gw * list Event * Outcome nat :=
  apiFetch js_Number toLocaleTimeString net now (op_path op) (op_options op) g.

(** [getUserProfile(serverUrl, apiKey)]: one [fetch], whose outcome is
    [o].  The success branch is [return res.json()] inside the [try]:
    the returned promise is not awaited there, so its rejection is not
    seen by the [catch]. *)
Definition getUserProfile (srv key : string) (o : FetchOutcome)
  : list Event * Outcome (option nat) :=
  let url := strip_trailing_slash srv ++ "/api/auth/me" in
  let ev := EvFetch url None [("Authorization", "Bearer " ++ key);
                              ("Content-Type", "application/json")] None in
  ([ev],
   match o with
   | Reject _ => Return None
   | Resp status _ b _ _ =>
     if negb (res_ok status) then Return None
     else match b with
          | JBody v _ => Return (Some v)
          | JNull _ => Return None
          | JInvalid e => Throw e
          end
   end).

(** Counting network attempts and listing backoff delays in a trace. *)
Definition is_fetch (e : Event) : bool :=
  match e with EvFetch _ _ _ _ => true | _ => false end.

Definition fetch_count (tr : list Event) : nat := List.length (filter is_fetch tr).

Definition sleeps (tr : list Event) : list Z :=
  flat_map (fun e => match e with EvSleep ms => [ms] | _ => [] end) tr.

(** Sample instances of the two browser primitives, for concrete runs. *)
Definition sample_Number (s : string) : option Q :=
  if String.eqb s "0" then Some 0%Q
  else if String.eqb s "3" then Some 3%Q
  else None.
Definition sample_time (ms : Q) : string := "10:00:00 AM".

Definition sample_store : Storage :=
  {| st_serverUrl := Some "https://api.context-vault.com/";
     st_apiKey := Some "cv_key"; st_encryptionSecret := None;
     st_rateLimitRemaining := None; st_rateLimitReset := None |}.

Definition sample_gw : Gw :=
  {| cachedSettings := None; cachedRateLimit := None; storage := sample_store |}.

Example apiFetch_500_run :
  let '(_, tr, o) := gatewayCall sample_Number sample_time getVaultStatus
                      (fun _ => Resp 503 "Service Unavailable" (JBody 0 None) None None)
                      0 sample_gw in
  (fetch_count tr, sleeps tr, option_map err_code (match o with Throw e => Some e | _ => None end))
  = (3%nat, [1000; 3000]%Z, Some (Some SERVER_ERROR)).
Proof. reflexivity. Qed.

Example apiFetch_timeout_run :
  let '(_, tr, o) := gatewayCall sample_Number sample_time getVaultStatus
                      (fun _ => Reject (DOMException "AbortError" "signal is aborted without reason"))
                      0 sample_gw in
  (fetch_count tr, sleeps tr, o)
  = (3%nat, [1000; 3000]%Z, Throw (DOMException "AbortError" "signal is aborted without reason")).
Proof. reflexivity. Qed.

(** ** Vocabulary of the gateway claims *)

(** The call gets past both guards of [apiFetch]: settings name a server
    and a credential, and the rate-limit pre-flight does not fire. *)
Definition preflight_passes (g : Gw) (now : Z) : Prop :=
  let s := snd (getSettings g) in
  serverUrl s <> "" /\ apiKey s <> "" /\
  match cachedRateLimit g with
  | Some rl => Qle_bool (remaining rl) 0 && Qltb (now # 1000) (resetAt rl) = false
  | None => True
  end.

(** An attempt that fails with a 5xx response, a timeout (the abort
    controller's [AbortError]) or a network-level [TypeError]. *)
Definition retryable_failure (o : FetchOutcome) : Prop :=
  match o with
  | Resp s _ _ _ _ => (500 <= s <= 599)%Z
  | Reject e => is_AbortError e = true \/ is_TypeError e = true
  end.

(** [res.json()] resolved to [null]. *)
Definition is_null_body (b : JsonBody) : bool :=
  match b with JNull _ => true | _ => false end.

(** The error an attempt fails with. *)
Definition attempt_error (o : FetchOutcome) : jserr :=
  match o with
  | Resp _ _ (JNull _) _ _ => null_body_error
  | Resp s st b _ _ => APIError (http_error_message s st b) s (statusToErrorCode s)
  | Reject e => e
  end.

(** The network-visible shape of a trace: [None] for an attempt,
    [Some ms] for a backoff delay. *)
Definition net_shape (tr : list Event) : list (option Z) :=
  flat_map (fun e => match e with
                     | EvFetch _ _ _ _ => [None]
                     | EvSleep ms => [Some ms]
                     | _ => [] end) tr.

(** ** Lemmas on the retry loop *)

Lemma retry_loop_exit : forall jsN net ev n le g,
  retry_loop jsN net ev n 3 le g = (g, [], Throw (friendlyError le)).
Proof. intros jsN net ev [|n] le g; reflexivity. Qed.

Lemma getSettings_rl : forall g, cachedRateLimit (fst (getSettings g)) = cachedRateLimit g.
Proof. intros [[s|] r st]; reflexivity. Qed.

(** An attempt failure that the loop retries: a non-2xx response whose
    status is not 401/429 or whose body is [null], or a rejection of
    [fetch] with an [Error] value that is not a 401/429 [APIError]. *)
Definition retried_failure (o : FetchOutcome) : Prop :=
  match o with
  | Resp s _ b _ _ => res_ok s = false /\ (no_retry s = false \/ is_null_body b = true)
  | Reject e =>
    is_Error e = true /\
    match e with APIError _ s _ => no_retry s = false | _ => True end
  end.

Lemma retryable_retried : forall o, retryable_failure o -> retried_failure o.
Proof.
  intros [s st b h1 h2 | e] H; simpl in *.
  - split.
    + unfold res_ok; apply andb_false_iff; right; apply Z.leb_gt; lia.
    + left. unfold no_retry; simpl.
      destruct (Z.eqb_spec s 401); [lia|]; destruct (Z.eqb_spec s 429); [lia|]; reflexivity.
  - destruct e; destruct H as [H|H]; try discriminate; split; exact I || reflexivity.
Qed.

Ltac rw_eq H := lazymatch type of H with _ = _ => rewrite H | _ => idtac end.

Lemma retry_loop_retry : forall jsN net ev n attempt le g,
  (attempt < 2)%nat -> retried_failure (net attempt) ->
  exists le', retry_loop jsN net ev (S n) attempt le g =
    let '(g', tr, o) := retry_loop jsN net ev n (S attempt) le' g in
    (g', ev :: EvSleep (backoff attempt) :: tr, o).
Proof.
  intros jsN net ev n attempt le g Hlt Hr.
  assert (Hle : (attempt <=? List.length RETRY_BACKOFF_MS)%nat = true)
    by (apply Nat.leb_le; simpl; lia).
  assert (Hlt' : (attempt <? List.length RETRY_BACKOFF_MS)%nat = true)
    by (apply Nat.ltb_lt; simpl; lia).
  cbn [retry_loop]. rewrite Hle. cbn [negb].
  destruct (net attempt) as [s st b h1 h2 | e] eqn:E; simpl in Hr.
  - destruct Hr as [Hok [Hnr|Hnull]]; rewrite Hok.
    + destruct b; [rewrite Hnr, Hlt'| |rewrite Hnr, Hlt'];
        unfold sleep_if_more; rewrite ?Hlt'; eexists; reflexivity.
    + destruct b; try discriminate.
      unfold sleep_if_more; rewrite Hlt'. eexists. reflexivity.
  - destruct Hr as [He Hs].
    destruct (is_AbortError e) eqn:Ha.
    + rewrite Hlt'. eexists. reflexivity.
    + unfold sleep_if_more. rewrite Hlt'.
      destruct e; try discriminate; rw_eq Hs; eexists; reflexivity.
Qed.

Lemma retry_loop_last : forall jsN net ev n le g,
  retried_failure (net 2%nat) ->
  retry_loop jsN net ev (S n) 2 le g
  = (g, [ev], Throw (friendlyError (Some (attempt_error (net 2%nat))))).
Proof.
  intros jsN net ev n le g Hr.
  cbn [retry_loop]. change (negb (2 <=? List.length RETRY_BACKOFF_MS)%nat) with false.
  cbv iota.
  destruct (net 2%nat) as [s st b h1 h2 | e] eqn:E; simpl in Hr.
  - destruct Hr as [Hok [Hnr|Hnull]]; rewrite Hok.
    + destruct b; simpl; rewrite ?Hnr; simpl; rewrite ?Hnr, retry_loop_exit; reflexivity.
    + destruct b; try discriminate. simpl. rewrite retry_loop_exit. reflexivity.
  - destruct Hr as [He Hs].
    destruct (is_AbortError e) eqn:Ha;
      destruct e; try discriminate; rw_eq Hs; simpl;
      rewrite retry_loop_exit; reflexivity.
Qed.

Lemma apiFetch_passes : forall jsN tlt net now path options g,
  preflight_passes g now ->
  exists g2 url hdrs, apiFetch jsN tlt net now path options g =
    let '(g3, tr, o) :=
      retry_loop jsN net (EvFetch url (method options) hdrs (reqBody options))
                 (S (List.length RETRY_BACKOFF_MS)) 0 None g2 in
    (g3, EvConfigCheck :: EvPreflight :: tr, o).
Proof.
  intros jsN tlt net now path options g [Hs [Hk Hr]].
  unfold apiFetch.
  rewrite <- (getSettings_rl g) in Hr.
  destruct (getSettings g) as [g1 s] eqn:Eg. simpl in Hs, Hk, Hr.
  apply String.eqb_neq in Hs, Hk. rewrite Hs, Hk.
  assert (Hpre : match cachedRateLimit g1 with
                 | Some rl =>
                   if Qle_bool (remaining rl) 0 && Qltb (now # 1000) (resetAt rl)
                   then Some (g1, [EvConfigCheck; EvPreflight],
                              @Throw nat (APIError ("Rate limit exhausted. Resets at "
                                 ++ tlt (resetAt rl * 1000) ++ ".") 429 (Some RATE_LIMITED)))
                   else None
                 | None => None end = None).
  { destruct (cachedRateLimit g1) as [rl|]; [rewrite Hr|]; reflexivity. }
  rewrite Hpre.
  destruct (getSettings g1) as [g2 s2].
  do 3 eexists. reflexivity.
Qed.

Lemma retry_loop_no_retry : forall jsN net ev n attempt le g s st b h1 h2,
  (attempt <= 2)%nat -> net attempt = Resp s st b h1 h2 -> no_retry s = true ->
  is_null_body b = false ->
  retry_loop jsN net ev (S n) attempt le g
  = (g, [ev], Throw (attempt_error (net attempt))).
Proof.
  intros jsN net ev n attempt le g s st b h1 h2 Hle E Hnr Hb.
  assert (Hle' : (attempt <=? List.length RETRY_BACKOFF_MS)%nat = true)
    by (apply Nat.leb_le; simpl; lia).
  assert (Hok : res_ok s = false).
  { unfold no_retry in Hnr; simpl in Hnr.
    destruct (Z.eqb_spec s 401); [subst; reflexivity|].
    destruct (Z.eqb_spec s 429); [subst; reflexivity|]. discriminate. }
  cbn [retry_loop]. rewrite Hle'. cbn [negb]. rewrite E, Hok.
  destruct b; try discriminate; rewrite Hnr; reflexivity.
Qed.

Lemma net_shape_app : forall a b, net_shape (a ++ b)%list = (net_shape a ++ net_shape b)%list.
Proof. intros a b. unfold net_shape. apply flat_map_app. Qed.

Lemma null_body_retried : forall o,
  (exists s st v h1 h2, o = Resp s st (JNull v) h1 h2 /\ res_ok s = false) ->
  retried_failure o.
Proof.
  intros o (s & st & v & h1 & h2 & -> & Hok). simpl. split; [exact Hok|right; reflexivity].
Qed.

Lemma friendlyError_null_body : friendlyError (Some null_body_error) = null_body_error.
Proof. reflexivity. Qed.

(** C1: the retry policy, and the input on which it breaks.  A 401 or
    429 response whose body is not [null] ends the call after one attempt
    with no backoff; three attempts failing with 5xx, timeout or network
    errors are made one after another with delays of 1000 ms and then
    3000 ms, and the call fails with the (classified) last error.  But a
    non-2xx response whose body is JSON [null], 401 and 429 included,
    makes [body.error] throw a [TypeError] before the [NO_RETRY_STATUSES]
    test: the loop retries it like a network failure, so three such
    responses give three attempts, and the call fails with that
    [TypeError], which has no status and no code. *)
Theorem apiFetch_retry_policy :
  forall jsN tlt op net now g,
  preflight_passes g now ->
  let '(_, tr, o) := gatewayCall jsN tlt op net now g in
  ((exists s st b h1 h2, net 0%nat = Resp s st b h1 h2 /\ (s = 401 \/ s = 429)%Z
                         /\ is_null_body b = false) ->
     net_shape tr = [None] /\ o = Throw (attempt_error (net 0%nat)))
  /\
  ((forall i, (i < 3)%nat -> retryable_failure (net i)) ->
     net_shape tr = [None; Some 1000%Z; None; Some 3000%Z; None]
     /\ o = Throw (friendlyError (Some (attempt_error (net 2%nat)))))
  /\
  ((forall i, (i < 3)%nat ->
      exists s st v h1 h2, net i = Resp s st (JNull v) h1 h2 /\ res_ok s = false) ->
     net_shape tr = [None; Some 1000%Z; None; Some 3000%Z; None]
     /\ o = Throw null_body_error
     /\ err_status null_body_error = None /\ err_code null_body_error = None).
Proof.
  intros jsN tlt op net now g Hp. unfold gatewayCall.
  destruct (apiFetch_passes jsN tlt net now (op_path op) (op_options op) g Hp)
    as [g2 [url [hdrs E]]].
  rewrite E. set (ev := EvFetch url _ hdrs _).
  change (S (List.length RETRY_BACKOFF_MS)) with 3%nat.
  destruct (retry_loop jsN net ev 3 0 None g2) as [[g3 tr] o] eqn:R.
  assert (Hthree : (forall i, (i < 3)%nat -> retried_failure (net i)) ->
            net_shape tr = [None; Some 1000%Z; None; Some 3000%Z; None]
            /\ o = Throw (friendlyError (Some (attempt_error (net 2%nat))))).
  { intros Hall.
    destruct (retry_loop_retry jsN net ev 2 0 None g2) as [le1 R1];
      [lia | apply Hall; lia |].
    rewrite R1 in R.
    destruct (retry_loop_retry jsN net ev 1 1 le1 g2) as [le2 R2];
      [lia | apply Hall; lia |].
    rewrite R2 in R.
    rewrite (retry_loop_last jsN net ev 0 le2 g2) in R; [| apply Hall; lia].
    inversion R; subst. split; reflexivity. }
  split; [|split].
  - intros (s & st & b & h1 & h2 & Hn & Hs & Hb).
    rewrite (retry_loop_no_retry jsN net ev _ 0 None g2 s st b h1 h2) in R;
      [| lia | exact Hn | destruct Hs; subst; reflexivity | exact Hb].
    inversion R; subst. split; reflexivity.
  - intros Hall. apply Hthree. intros i Hi. apply retryable_retried, Hall, Hi.
  - intros Hall.
    assert (Hr : forall i, (i < 3)%nat -> retried_failure (net i))
      by (intros i Hi; apply null_body_retried, Hall, Hi).
    destruct (Hthree Hr) as [Hs Ho].
    destruct (Hall 2%nat ltac:(lia)) as (s & st & v & h1 & h2 & Hn & _).
    rewrite Ho, Hn. split; [exact Hs|]. repeat split; reflexivity.
Qed.

(** Witness for C1: a configured call with no rate-limit state. *)
Lemma sample_gw_passes : preflight_passes sample_gw 0.
Proof. unfold preflight_passes; simpl; repeat split; discriminate. Qed.

(** Every attempt answered by a 401 whose body is [null]. *)
Definition net_401_null : nat -> FetchOutcome :=
  fun _ => Resp 401 "Unauthorized" (JNull 0) None None.

Lemma apiFetch_retry_policy_witness :
  preflight_passes sample_gw 0 /\
  let '(_, tr, o) := gatewayCall sample_Number sample_time getVaultStatus net_401_null 0 sample_gw in
  net_shape tr = [None; Some 1000%Z; None; Some 3000%Z; None]
  /\ o = Throw null_body_error
  /\ err_status null_body_error = None /\ err_code null_body_error = None.
Proof.
  assert (Hp : preflight_passes sample_gw 0)
    by (unfold preflight_passes; simpl; repeat split; discriminate).
  split; [exact Hp|].
  pose proof (apiFetch_retry_policy sample_Number sample_time getVaultStatus net_401_null 0
                sample_gw Hp) as H.
  destruct (gatewayCall sample_Number sample_time getVaultStatus net_401_null 0 sample_gw)
    as [[g' tr] o].
  apply (proj2 (proj2 H)).
  intros i _. exists 401%Z, "Unauthorized", 0%nat, None, None. split; reflexivity.
Defined.

(** Events that [retry_loop] may emit. *)
Definition loop_event (e : Event) : Prop :=
  match e with EvConfigCheck | EvPreflight => False | _ => True end.

Lemma retry_loop_trace : forall jsN net ev n attempt le g g' tr o,
  loop_event ev -> retry_loop jsN net ev n attempt le g = (g', tr, o) ->
  Forall loop_event tr.
Proof.
  intros jsN net ev n. induction n as [|n IH]; intros attempt le g g' tr o Hev H.
  - inversion H; constructor.
  - cbn [retry_loop] in H.
    destruct (negb _); [inversion H; constructor|].
    destruct (net attempt) as [s st b h1 h2 | e];
    [destruct (res_ok s);
     [unfold updateRateLimitCache in H;
      destruct h1, h2; inversion H; subst; repeat constructor; assumption|]|];
    unfold sleep_if_more in H;
    repeat match goal with
    | H : context [retry_loop ?a ?b ?c ?m ?d ?e ?f] |- _ =>
        let R := fresh "R" in
        destruct (retry_loop a b c m d e f) as [[?g0 ?tr0] ?o0] eqn:R;
        apply IH in R; [|exact Hev]
    | H : context [if ?c then _ else _] |- _ => destruct c
    | H : context [match ?x with APIError _ _ _ => _ | _ => _ end] |- _ => destruct x
    | H : context [match ?x with JNull _ => _ | _ => _ end] |- _ => destruct x
    | H : (_, _, _) = (_, _, _) |- _ => injection H; intros; subst; clear H
    | H : _ |- _ => progress (simpl in H)
    end;
    repeat constructor; assumption.
Qed.

Lemma retry_loop_first : forall jsN net ev n attempt le g,
  (attempt <= 2)%nat ->
  exists rest, snd (fst (retry_loop jsN net ev (S n) attempt le g)) = ev :: rest.
Proof.
  intros jsN net ev n attempt le g Hle.
  assert (Hle' : (attempt <=? List.length RETRY_BACKOFF_MS)%nat = true)
    by (apply Nat.leb_le; simpl; lia).
  cbn [retry_loop]. rewrite Hle'. cbn [negb].
  destruct (net attempt) as [s st b h1 h2 | e];
  [destruct (res_ok s);
   [unfold updateRateLimitCache; destruct h1, h2; eexists; reflexivity|];
   destruct b; cbv [null_body_error]|];
  repeat match goal with
  | |- context [retry_loop ?a ?b ?c n ?d ?e ?f] =>
      destruct (retry_loop a b c n d e f) as [[? ?] ?]
  | |- context [if ?c then _ else _] => destruct c
  | |- context [match ?x with APIError _ _ _ => _ | _ => _ end] => destruct x
  | |- _ => progress simpl
  end; eexists; reflexivity.
Qed.

Lemma apiFetch_unconfigured : forall jsN tlt net now path options g,
  serverUrl (snd (getSettings g)) = "" \/ apiKey (snd (getSettings g)) = "" ->
  exists msg, apiFetch jsN tlt net now path options g
  = (fst (getSettings g), [EvConfigCheck], Throw (APIError msg 0 (Some NOT_CONFIGURED))).
Proof.
  intros jsN tlt net now path options g H. unfold apiFetch.
  destruct (getSettings g) as [g1 s]. cbn [fst snd] in H |- *.
  destruct (String.eqb (serverUrl s) "") eqn:E1.
  - eexists; reflexivity.
  - destruct H as [H|H]; [rewrite H in E1; discriminate|].
    rewrite H. change (String.eqb "" "") with true. cbv iota. eexists; reflexivity.
Qed.

Lemma apiFetch_blocked : forall jsN tlt net now path options g rl,
  serverUrl (snd (getSettings g)) <> "" -> apiKey (snd (getSettings g)) <> "" ->
  cachedRateLimit g = Some rl ->
  Qle_bool (remaining rl) 0 && Qltb (now # 1000) (resetAt rl) = true ->
  apiFetch jsN tlt net now path options g
  = (fst (getSettings g), [EvConfigCheck; EvPreflight],
     Throw (APIError ("Rate limit exhausted. Resets at "
                      ++ tlt (resetAt rl * 1000) ++ ".") 429 (Some RATE_LIMITED))).
Proof.
  intros jsN tlt net now path options g rl Hs Hk Hrl Hb. unfold apiFetch.
  rewrite <- (getSettings_rl g) in Hrl.
  destruct (getSettings g) as [g1 s]. cbn [fst snd] in *.
  apply String.eqb_neq in Hs, Hk. rewrite Hs, Hk, Hrl, Hb. reflexivity.
Qed.

Lemma Qltb_spec : forall a b, Qltb a b = true <-> (a < b)%Q.
Proof.
  intros a b. unfold Qltb. rewrite negb_true_iff. split.
  - intros H. apply Qnot_le_lt. intros H'. apply Qle_bool_iff in H'. congruence.
  - intros H. destruct (Qle_bool b a) eqn:E; [|reflexivity].
    apply Qle_bool_iff in E. exfalso. apply (Qlt_not_le a b H E).
Qed.

Lemma apiFetch_trace : forall jsN tlt net now path options g,
  exists rest, snd (fst (apiFetch jsN tlt net now path options g)) = EvConfigCheck :: rest
  /\ Forall (fun e => e <> EvConfigCheck) rest.
Proof.
  intros jsN tlt net now path options g. unfold apiFetch.
  remember (retry_loop jsN net) as L eqn:HL.
  destruct (getSettings g) as [g1 s].
  destruct (String.eqb (serverUrl s) ""); [exists []; split; [reflexivity|constructor]|].
  destruct (String.eqb (apiKey s) ""); [exists []; split; [reflexivity|constructor]|].
  destruct (cachedRateLimit g1) as [rl|];
    [destruct (Qle_bool (remaining rl) 0 && Qltb (now # 1000) (resetAt rl));
     [exists [EvPreflight]; split; [reflexivity|]; repeat constructor; discriminate|]|].
  all: destruct (getSettings g1) as [g2 s2].
  all: subst L.
  all: match goal with |- context [retry_loop ?j ?nt ?ev ?n ?a ?le ?gg] =>
    destruct (retry_loop j nt ev n a le gg) as [[g3 tr3] o3] eqn:R end.
  all: apply retry_loop_trace in R; [|exact I].
  all: exists (EvPreflight :: tr3); split; [reflexivity|].
  all: constructor; [discriminate|].
  all: eapply Forall_impl; [|exact R]; intros [] H Heq; try discriminate; exact H.
Qed.

(** C5: a call whose resolved settings lack the server URL or the
    credential fails with [NOT_CONFIGURED] without any network attempt,
    whatever the rate-limit state; every call runs the configuration
    check exactly once, first, before the pre-flight. *)
Theorem apiFetch_not_configured : forall jsN tlt op net now g,
  let s := snd (getSettings g) in
  let '(_, tr, o) := gatewayCall jsN tlt op net now g in
  ((serverUrl s = "" \/ apiKey s = "") ->
     (exists msg, o = Throw (APIError msg 0 (Some NOT_CONFIGURED)))
     /\ tr = [EvConfigCheck] /\ fetch_count tr = 0%nat)
  /\ (exists rest, tr = EvConfigCheck :: rest /\ ~ In EvConfigCheck rest).
Proof.
  intros jsN tlt op net now g. cbv zeta. unfold gatewayCall.
  destruct (apiFetch jsN tlt net now (op_path op) (op_options op) g)
    as [[g' tr] o] eqn:E.
  split.
  - intros H.
    destruct (apiFetch_unconfigured jsN tlt net now (op_path op) (op_options op) g H)
      as [msg E'].
    rewrite E' in E. inversion E; subst. eauto.
  - pose proof (apiFetch_trace jsN tlt net now (op_path op) (op_options op) g) as T.
    rewrite E in T. simpl in T. destruct T as [rest [-> T]].
    exists rest. split; [reflexivity|]. intros H.
    rewrite Forall_forall in T. exact (T _ H eq_refl).
Qed.

(** A configured state whose cached rate limit is exhausted until
    epoch second 100. *)
Definition configured_settings : Settings :=
  {| serverUrl := "https://api.context-vault.com"; apiKey := "cv_key";
     encryptionSecret := "" |}.

Definition exhausted_gw : Gw :=
  {| cachedSettings := Some configured_settings;
     cachedRateLimit := Some {| remaining := 0; resetAt := 100 |};
     storage := sample_store |}.

(** The same rate-limit state with no server URL stored. *)
Definition unconfigured_exhausted_gw : Gw :=
  {| cachedSettings := None;
     cachedRateLimit := Some {| remaining := 0; resetAt := 100 |};
     storage := {| st_serverUrl := None; st_apiKey := None; st_encryptionSecret := None;
                   st_rateLimitRemaining := Some "0"; st_rateLimitReset := Some "100" |} |}.

Definition ok_net : nat -> FetchOutcome := fun _ => Resp 200 "OK" (JBody 0 None) None None.

(** C4 (counterexample): with no server URL configured, an exhausted
    rate limit whose reset lies in the future does not produce
    [RATE_LIMITED]: the configuration check answers first. *)
Lemma rate_limit_preflight_unconfigured_cex :
  let '(_, tr, o) := gatewayCall sample_Number sample_time getVaultStatus ok_net 0
                       unconfigured_exhausted_gw in
  fetch_count tr = 0%nat /\
  match o with Throw e => err_code e = Some NOT_CONFIGURED | Return _ => False end.
Proof. vm_compute. split; reflexivity. Qed.

(** C4 (amended): without a server URL or a credential in the resolved
    settings, a call fails with [NOT_CONFIGURED] and makes no network
    attempt, whatever the rate-limit state.  For a call whose settings
    name a server URL and a credential, an exhausted cached limit
    ([remaining <= 0]) whose [resetAt] is still ahead fails with
    [RATE_LIMITED], status 429 and the localised reset time, with no
    network attempt; once [resetAt] is not ahead any more, the pre-flight
    lets the call through and the next event is a network attempt. *)
Theorem apiFetch_rate_limit_preflight :
  forall jsN tlt op net now g,
  let s := snd (getSettings g) in
  let '(_, tr, o) := gatewayCall jsN tlt op net now g in
  ((serverUrl s = "" \/ apiKey s = "") ->
     (exists msg, o = Throw (APIError msg 0 (Some NOT_CONFIGURED)))
     /\ fetch_count tr = 0%nat)
  /\
  (forall rl, serverUrl s <> "" -> apiKey s <> "" -> cachedRateLimit g = Some rl ->
   ((remaining rl <= 0)%Q -> (now # 1000 < resetAt rl)%Q ->
      o = Throw (APIError ("Rate limit exhausted. Resets at "
                           ++ tlt (resetAt rl * 1000) ++ ".") 429 (Some RATE_LIMITED))
      /\ fetch_count tr = 0%nat)
   /\ ((resetAt rl <= now # 1000)%Q ->
       exists url hdrs rest,
         tr = EvConfigCheck :: EvPreflight
              :: EvFetch url (method (op_options op)) hdrs (reqBody (op_options op)) :: rest)).
Proof.
  intros jsN tlt op net now g. cbv zeta. unfold gatewayCall.
  destruct (apiFetch jsN tlt net now (op_path op) (op_options op) g)
    as [[g' tr] o] eqn:E.
  split.
  - intros H.
    destruct (apiFetch_unconfigured jsN tlt net now (op_path op) (op_options op) g H)
      as [msg E'].
    rewrite E' in E. inversion E; subst. split; [eexists; reflexivity|reflexivity].
  - intros rl Hs Hk Hrl. split.
    + intros Hr Ht.
      rewrite (apiFetch_blocked jsN tlt net now _ _ g rl Hs Hk Hrl) in E.
      * inversion E; subst. split; reflexivity.
      * apply andb_true_iff. split; [apply Qle_bool_iff; exact Hr | apply Qltb_spec; exact Ht].
    + intros Hp.
      assert (Hpass : preflight_passes g now).
      { repeat split; try assumption. rewrite Hrl.
        apply andb_false_iff. right. unfold Qltb. apply negb_false_iff.
        apply Qle_bool_iff. exact Hp. }
      destruct (apiFetch_passes jsN tlt net now (op_path op) (op_options op) g Hpass)
        as [g2 [url [hdrs E2]]].
      rewrite E2 in E.
      destruct (retry_loop_first jsN net (EvFetch url (method (op_options op)) hdrs
                  (reqBody (op_options op))) (List.length RETRY_BACKOFF_MS) 0 None g2)
        as [rest Hr]; [lia|].
      destruct (retry_loop _ _ _ _ _ _ _) as [[g3 tr3] o3].
      simpl in Hr. subst tr3. inversion E; subst.
      exists url, hdrs, rest. reflexivity.
Qed.

(** Witness for C4: the same exhausted limit, with and without a
    configured server. *)
Lemma apiFetch_rate_limit_preflight_witness :
  (let '(_, tr, o) := gatewayCall sample_Number sample_time getVaultStatus ok_net 0
                        unconfigured_exhausted_gw in
   (exists msg, o = Throw (APIError msg 0 (Some NOT_CONFIGURED))) /\ fetch_count tr = 0%nat)
  /\
  (let '(_, tr, o) := gatewayCall sample_Number sample_time getVaultStatus ok_net 0 exhausted_gw in
   o = Throw (APIError ("Rate limit exhausted. Resets at "
                        ++ sample_time (100 * 1000) ++ ".") 429 (Some RATE_LIMITED))
   /\ fetch_count tr = 0%nat).
Proof.
  split.
  - pose proof (apiFetch_rate_limit_preflight sample_Number sample_time getVaultStatus ok_net 0
                  unconfigured_exhausted_gw) as H. cbv zeta in H.
    destruct (gatewayCall sample_Number sample_time getVaultStatus ok_net 0
                unconfigured_exhausted_gw) as [[g' tr] o].
    apply (proj1 H). left. reflexivity.
  - pose proof (apiFetch_rate_limit_preflight sample_Number sample_time getVaultStatus ok_net 0
                  exhausted_gw) as H. cbv zeta in H.
    destruct (gatewayCall sample_Number sample_time getVaultStatus ok_net 0 exhausted_gw)
      as [[g' tr] o].
    apply (proj2 H {| remaining := 0; resetAt := 100 |});
      [discriminate | discriminate | reflexivity | apply Qle_refl | reflexivity].
Defined.

(** C10: the error thrown by the rate-limit pre-flight (no response
    received, no network attempt) and the error thrown for a 429 response
    from the server whose body is not [null] (one attempt) carry the same
    status 429 and the same code [RATE_LIMITED]. *)
Theorem preflight_and_server_429_same_status_code :
  forall jsN tlt op op' net net' now now' g g' rl st b h1 h2,
  serverUrl (snd (getSettings g)) <> "" -> apiKey (snd (getSettings g)) <> "" ->
  cachedRateLimit g = Some rl -> (remaining rl <= 0)%Q -> (now # 1000 < resetAt rl)%Q ->
  preflight_passes g' now' -> net' 0%nat = Resp 429 st b h1 h2 -> is_null_body b = false ->
  let '(_, tr, o) := gatewayCall jsN tlt op net now g in
  let '(_, tr', o') := gatewayCall jsN tlt op' net' now' g' in
  fetch_count tr = 0%nat /\ fetch_count tr' = 1%nat /\
  exists e e', o = Throw e /\ o' = Throw e' /\
    err_status e = Some 429%Z /\ err_status e' = Some 429%Z /\
    err_code e = Some RATE_LIMITED /\ err_code e' = Some RATE_LIMITED.
Proof.
  intros jsN tlt op op' net net' now now' g g' rl st b h1 h2 Hs Hk Hrl Hr Ht Hp Hn Hb.
  unfold gatewayCall.
  rewrite (apiFetch_blocked jsN tlt net now _ _ g rl Hs Hk Hrl).
  2: apply andb_true_iff; split; [apply Qle_bool_iff; exact Hr | apply Qltb_spec; exact Ht].
  destruct (apiFetch_passes jsN tlt net' now' (op_path op') (op_options op') g' Hp)
    as [g2 [url [hdrs E2]]].
  rewrite E2.
  change (S (List.length RETRY_BACKOFF_MS)) with 3%nat.
  rewrite (retry_loop_no_retry jsN net' _ 2 0 None g2 429 st b h1 h2);
    [|lia|exact Hn|reflexivity|exact Hb].
  rewrite Hn. destruct b; try discriminate;
    (split; [reflexivity|]; split; [reflexivity|]; do 2 eexists; repeat split).
Qed.

Definition server_429_net : nat -> FetchOutcome :=
  fun _ => Resp 429 "Too Many Requests" (JBody 0 (Some "Rate limit exceeded")) None None.

Lemma preflight_and_server_429_same_status_code_witness :
  (serverUrl (snd (getSettings exhausted_gw)) <> "" /\
   apiKey (snd (getSettings exhausted_gw)) <> "" /\
   cachedRateLimit exhausted_gw = Some {| remaining := 0; resetAt := 100 |} /\
   (0 <= 0)%Q /\ (0 # 1000 < 100)%Q /\ preflight_passes sample_gw 0 /\
   server_429_net 0%nat = Resp 429 "Too Many Requests" (JBody 0 (Some "Rate limit exceeded")) None None /\
   is_null_body (JBody 0 (Some "Rate limit exceeded")) = false)
  /\
  let '(_, tr, o) := gatewayCall sample_Number sample_time getVaultStatus ok_net 0 exhausted_gw in
  let '(_, tr', o') := gatewayCall sample_Number sample_time getVaultStatus server_429_net 0 sample_gw in
  fetch_count tr = 0%nat /\ fetch_count tr' = 1%nat /\
  exists e e', o = Throw e /\ o' = Throw e' /\
    err_status e = Some 429%Z /\ err_status e' = Some 429%Z /\
    err_code e = Some RATE_LIMITED /\ err_code e' = Some RATE_LIMITED.
Proof.
  assert (Hp : preflight_passes sample_gw 0)
    by (unfold preflight_passes; simpl; repeat split; discriminate).
  split.
  - repeat split; try discriminate; try reflexivity; try exact Hp;
      try apply Qle_refl; vm_compute; reflexivity.
  - apply (preflight_and_server_429_same_status_code sample_Number sample_time
             getVaultStatus getVaultStatus ok_net server_429_net 0 0 exhausted_gw sample_gw
             {| remaining := 0; resetAt := 100 |} "Too Many Requests"
             (JBody 0 (Some "Rate limit exceeded")) None None);
      try discriminate; try reflexivity; try exact Hp;
      try apply Qle_refl; vm_compute; reflexivity.
Defined.

Definition net_404 : nat -> FetchOutcome :=
  fun _ => Resp 404 "Not Found" (JBody 0 None) None None.






(** C9 (failing input): [getUserProfile] on a 2xx response whose body is
    not JSON (an HTML page served at [/api/auth/me]) rejects with the
    parser's [SyntaxError] instead of resolving to [null]. *)
Theorem getUserProfile_rejects_on_invalid_json :
  snd (getUserProfile "https://app.context-vault.com" "cv_key"
         (Resp 200 "OK" (JInvalid (SyntaxError "Unexpected token '<' in JSON at position 0"))
               None None))
  = Throw (SyntaxError "Unexpected token '<' in JSON at position 0").
Proof. reflexivity. Qed.

(* ------------------------------------------------------------------ *)
(** ** URL parsing (the platform's [new URL(s)])

    A model of the WHATWG URL parser for the inputs the extension
    handles: leading and trailing C0-or-space characters are stripped and
    tab/newline removed; the scheme is lower-cased; for the special
    schemes http, https, ws, wss and ftp, slashes and backslashes after
    the scheme are skipped, the authority runs to the first of
    [/ \ ? #], user info up to the last [@] is dropped, the host is
    lower-cased and must be non-empty and free of forbidden code points,
    and a port equal to the scheme's default is dropped.  The path has
    backslashes turned into slashes and its [.] and [..] segments
    resolved.  Not modelled: IPv6 literals (refused), IPv4 number
    normalisation, IDNA and percent-encoding. *)

Module Url.

Record URL := {
  protocol : string;
  host : string;
  pathname : string;
  hash : string
}.

Definition code (c : ascii) : nat := nat_of_ascii c.

Definition is_c0_space (c : ascii) : bool := (code c <=? 32)%nat.
Definition is_tab_nl (c : ascii) : bool :=
  (code c =? 9)%nat || (code c =? 10)%nat || (code c =? 13)%nat.
(** The white space and line terminators removed by JavaScript's
    [String.prototype.trim] among the code units a [string] of this
    development holds (those below 256): 9 to 13, 32 and 160 (U+00A0). *)
Definition is_js_ws (c : ascii) : bool :=
  ((9 <=? code c)%nat && (code c <=? 13)%nat) || (code c =? 32)%nat
  || (code c =? 160)%nat.

Definition in_chars (set : string) (c : ascii) : bool :=
  existsb (Ascii.eqb c) (list_ascii_of_string set).

Fixpoint ltrim (p : ascii -> bool) (s : string) : string :=
  match s with
  | EmptyString => EmptyString
  | String c s' => if p c then ltrim p s' else s
  end.

Fixpoint rtrim (p : ascii -> bool) (s : string) : string :=
  match s with
  | EmptyString => EmptyString
  | String c s' =>
    let r := rtrim p s' in
    if String.eqb r "" && p c then EmptyString else String c r
  end.

Definition strip (p : ascii -> bool) (s : string) : string := rtrim p (ltrim p s).

(** [s.trim()] *)
Definition js_trim (s : string) : string := strip is_js_ws s.

Fixpoint remove_tab_nl (s : string) : string :=
  match s with
  | EmptyString => EmptyString
  | String c s' => if is_tab_nl c then remove_tab_nl s' else String c (remove_tab_nl s')
  end.

Definition is_alpha (c : ascii) : bool :=
  let n := code c in ((65 <=? n) && (n <=? 90) || (97 <=? n) && (n <=? 122))%nat.
Definition is_digit (c : ascii) : bool := let n := code c in ((48 <=? n) && (n <=? 57))%nat.
Definition scheme_char (c : ascii) : bool := is_alpha c || is_digit c || in_chars "+-." c.

(** Scheme up to the first [:]; [None] when there is no [:] or a
    character of the scheme is not allowed. *)
Fixpoint take_scheme (s : string) : option (string * string) :=
  match s with
  | EmptyString => None
  | String c s' =>
    if Ascii.eqb c ":" then Some (EmptyString, s')
    else if scheme_char c then
      match take_scheme s' with Some (a, b) => Some (String c a, b) | None => None end
    else None
  end.

Fixpoint skip_slashes (s : string) : string :=
  match s with
  | String c s' => if in_chars "/\" c then skip_slashes s' else s
  | EmptyString => EmptyString
  end.

(** [break_at p s = (a, b)]: [a] is the longest prefix with no [p]
    character, [b] the rest. *)
Fixpoint break_at (p : ascii -> bool) (s : string) : string * string :=
  match s with
  | EmptyString => (EmptyString, EmptyString)
  | String c s' =>
    if p c then (EmptyString, s)
    else let '(a, b) := break_at p s' in (String c a, b)
  end.

Fixpoint after_last_at (s : string) : string :=
  match s with
  | EmptyString => EmptyString
  | String c s' =>
    if contains s' "@" then after_last_at s'
    else if Ascii.eqb c "@" then s' else s
  end.

Definition default_port (scheme : string) : option N :=
  if String.eqb scheme "http" then Some 80%N
  else if String.eqb scheme "https" then Some 443%N
  else if String.eqb scheme "ws" then Some 80%N
  else if String.eqb scheme "wss" then Some 443%N
  else if String.eqb scheme "ftp" then Some 21%N
  else None.

Definition forbidden_host_char (c : ascii) : bool :=
  is_c0_space c || (code c =? 127)%nat || in_chars "#%/:<>?@[\]^|" c.

Fixpoint digits_value (s : string) (acc : N) : option N :=
  match s with
  | EmptyString => Some acc
  | String c s' =>
    if is_digit c then digits_value s' (acc * 10 + N.of_nat (code c - 48))%N else None
  end.

(** The [host] of a special URL from its authority: hostname, plus
    [":" ++ port] when a non-default port is given. *)
Definition special_host (scheme auth : string) : option string :=
  let hp := after_last_at auth in
  let '(hn, pt) := break_at (Ascii.eqb ":") hp in
  if String.eqb hn "" || existsb forbidden_host_char (list_ascii_of_string hn) then None
  else
  let hn' := lower hn in
  match pt with
  | EmptyString => Some hn'
  | String _ digits =>
    if String.eqb digits "" then Some hn' else
    match digits_value digits 0 with
    | None => None
    | Some v =>
      if (65535 <? v)%N then None
      else if match default_port scheme with Some d => N.eqb v d | None => false end
      then Some hn'
      else Some (hn' ++ ":" ++ NilEmpty.string_of_uint (N.to_uint v))
    end
  end.

Fixpoint split_on (p : ascii -> bool) (s : string) : list string :=
  match s with
  | EmptyString => [EmptyString]
  | String c s' =>
    if p c then EmptyString :: split_on p s'
    else match split_on p s' with
         | x :: xs => String c x :: xs
         | [] => [String c EmptyString]
         end
  end.

Definition is_single_dot (seg : string) : bool :=
  String.eqb seg "." || String.eqb (lower seg) "%2e".
Definition is_double_dot (seg : string) : bool :=
  existsb (String.eqb (lower seg)) [".."; ".%2e"; "%2e."; "%2e%2e"].

(** Resolution of [.] and [..] segments; [stack] holds the output
    segments in reverse order. *)
Fixpoint resolve_dots (segs stack : list string) : list string :=
  match segs with
  | [] => stack
  | seg :: rest =>
    let last := match rest with [] => true | _ => false end in
    if is_double_dot seg then
      resolve_dots rest (if last then EmptyString :: tl stack else tl stack)
    else if is_single_dot seg then
      resolve_dots rest (if last then EmptyString :: stack else stack)
    else resolve_dots rest (seg :: stack)
  end.

Fixpoint map_chars (f : ascii -> ascii) (s : string) : string :=
  match s with
  | EmptyString => EmptyString
  | String c s' => String (f c) (map_chars f s')
  end.

Definition is_query_or_fragment (c : ascii) : bool := in_chars "?#" c.

(** [pathname] of a special URL, from what follows the authority. *)
Definition special_path (after : string) : string :=
  let p := map_chars (fun c => if Ascii.eqb c "\" then "/"%char else c)
                     (fst (break_at is_query_or_fragment after)) in
  match p with
  | EmptyString => "/"
  | String _ p' => "/" ++ String.concat "/" (rev (resolve_dots (split_on (Ascii.eqb "/") p') []))
  end.

(** [hash]: ["#" ++ fragment], or [""] when the fragment is absent or empty. *)
Definition hash_of (s : string) : string :=
  match snd (break_at (Ascii.eqb "#") s) with
  | EmptyString => EmptyString
  | String _ f => if String.eqb f "" then EmptyString else "#" ++ f
  end.

Definition is_special (scheme : string) : bool :=
  existsb (String.eqb scheme) ["http"; "https"; "ws"; "wss"; "ftp"].

(** [new URL(s)], [None] when it throws. *)
Definition parse (s : string) : option URL :=
  let s1 := remove_tab_nl (strip is_c0_space s) in
  match take_scheme s1 with
  | None => None
  | Some (sch0, rest) =>
    match sch0 with
    | EmptyString => None
    | String c0 _ =>
      if negb (is_alpha c0) then None else
      let sch := lower sch0 in
      if is_special sch then
        let '(auth, after) := break_at (in_chars "/\?#") (skip_slashes rest) in
        match special_host sch auth with
        | None => None
        | Some h => Some {| protocol := sch ++ ":"; host := h;
                            pathname := special_path after; hash := hash_of after |}
        end
      else
        match rest with
        | String "/" (String "/" r) =>
          let '(auth, after) := break_at (in_chars "/?#") r in
          Some {| protocol := sch ++ ":"; host := after_last_at auth;
                  pathname := fst (break_at is_query_or_fragment after);
                  hash := hash_of after |}
        | _ => Some {| protocol := sch ++ ":"; host := "";
                       pathname := fst (break_at is_query_or_fragment rest);
                       hash := hash_of rest |}
        end
    end
  end.

(** [URLSearchParams] over [application/x-www-form-urlencoded] text. *)
Definition hex_val (c : ascii) : option nat :=
  let n := code c in
  if ((48 <=? n) && (n <=? 57))%nat then Some (n - 48)%nat
  else if ((65 <=? n) && (n <=? 70))%nat then Some (n - 55)%nat
  else if ((97 <=? n) && (n <=? 102))%nat then Some (n - 87)%nat
  else None.

Fixpoint percent_decode (s : string) : string :=
  match s with
  | String "%" (String a (String b s') as t) =>
    match hex_val a, hex_val b with
    | Some x, Some y => String (ascii_of_nat (x * 16 + y)) (percent_decode s')
    | _, _ => String "%" (percent_decode t)
    end
  | String c s' => String c (percent_decode s')
  | EmptyString => EmptyString
  end.

Definition form_decode (s : string) : string :=
  percent_decode (map_chars (fun c => if Ascii.eqb c "+" then " "%char else c) s).

Definition search_params (s : string) : list (string * string) :=
  flat_map (fun piece =>
              if String.eqb piece "" then []
              else let '(n, v) := break_at (Ascii.eqb "=") piece in
                   [(form_decode n, form_decode (match v with
                                                 | String _ v' => v'
                                                 | EmptyString => EmptyString end))])
           (split_on (Ascii.eqb "&") s).

(** [params.get(name)] *)
Definition params_get (ps : list (string * string)) (name : string) : option string :=
  option_map snd (find (fun '(n, _) => String.eqb n name) ps).

End Url.

Example url_parse_sample :
  Url.parse " https://User@API.Example.com:443/a/./b/../x?q=1#token=abc "
  = Some {| Url.protocol := "https:"; Url.host := "api.example.com";
            Url.pathname := "/a/x"; Url.hash := "#token=abc" |}.
Proof. reflexivity. Qed.

Example url_parse_port :
  option_map Url.host (Url.parse "http://localhost:3000") = Some "localhost:3000".
Proof. reflexivity. Qed.

(* ------------------------------------------------------------------ *)
(** ** Origin permission negotiator ([index.ts])

    The helpers are defined for any parser [new_URL] standing for the
    platform's [new URL(s)] ([None] when it throws); [Url.parse] is the
    model used for concrete runs. *)

(** Calls to [chrome.permissions]. *)
Inductive PermEvent :=
| PermContains (origin : string)
| PermRequest (origin : string).

Section Permissions.

Variable new_URL : string -> option Url.URL.

(** [originPatternFromServerUrl] *)
Definition originPatternFromServerUrl (serverUrl : string) : Outcome string :=
  match new_URL (Url.js_trim serverUrl) with
  | None => Throw (PlainError "Invalid server URL. Use a full URL like https://api.context-vault.com")
  | Some parsed =>
    if negb (String.eqb (Url.protocol parsed) "https:")
       && negb (String.eqb (Url.protocol parsed) "http:") then
      Throw (PlainError "Server URL must use http:// or https://")
    else Return (Url.protocol parsed ++ "//" ++ Url.host parsed ++ "/*")
  end.

(** [ensureServerPermission]; [contains o] and [request o] are what
    [chrome.permissions.contains] and [chrome.permissions.request]
    report for the pattern [o] (the latter after prompting the user). *)
Definition ensureServerPermission (contains request : string -> bool)
  (serverUrl : string) : list PermEvent * Outcome string :=
  match originPatternFromServerUrl serverUrl with
  | Throw e => ([], Throw e)
  | Return origin =>
    if contains origin then ([PermContains origin], Return origin)
    else if request origin then ([PermContains origin; PermRequest origin], Return origin)
    else ([PermContains origin; PermRequest origin],
          Throw (PlainError ("Permission denied for " ++ origin
                             ++ ". Allow host access to connect this server.")))
  end.

End Permissions.

Example origin_pattern_samples :
  originPatternFromServerUrl Url.parse "https://api.example.com/x" = Return "https://api.example.com/*"
  /\ originPatternFromServerUrl Url.parse "  http://localhost:3000/api/ " = Return "http://localhost:3000/*"
  /\ originPatternFromServerUrl Url.parse (String (ascii_of_nat 160) "https://api.example.com")
     = Return "https://api.example.com/*"
  /\ originPatternFromServerUrl Url.parse "ftp://files.example.com" =
     Throw (PlainError "Server URL must use http:// or https://")
  /\ originPatternFromServerUrl Url.parse "api.example.com" =
     Throw (PlainError "Invalid server URL. Use a full URL like https://api.context-vault.com").
Proof. repeat split; reflexivity. Qed.

(** C8: for whatever [new URL] returns, [ensureServerPermission] derives
    the pattern [protocol ++ "//" ++ host ++ "/*"] from the parsed,
    trimmed server URL when its protocol is [http:] or [https:].  The
    pattern depends on the parsed URL only through its protocol and
    [host] (the host name with the port exactly when the URL has an
    explicit non-default one), so not on the path, the query or the
    fragment.  An unparsable URL, or one whose scheme is not http or
    https, fails with a descriptive error before any [chrome.permissions]
    call; when the user declines, the call fails with "Permission denied
    for " and the exact pattern.  With the model parser, the inputs
    "https://api.example.com/x", "http://localhost:3000/api" and
    "https://api.example.com:443/x" give "https://api.example.com/*",
    "http://localhost:3000/*" and "https://api.example.com/*". *)
Theorem ensureServerPermission_pattern :
  (forall new_URL s p, originPatternFromServerUrl new_URL s = Return p ->
     exists u, new_URL (Url.js_trim s) = Some u
       /\ (Url.protocol u = "http:" \/ Url.protocol u = "https:")
       /\ p = Url.protocol u ++ "//" ++ Url.host u ++ "/*")
  /\ (forall new_URL s u, new_URL (Url.js_trim s) = Some u ->
        (Url.protocol u = "http:" \/ Url.protocol u = "https:") ->
        originPatternFromServerUrl new_URL s
        = Return (Url.protocol u ++ "//" ++ Url.host u ++ "/*"))
  /\ (forall new_URL s s' u u', new_URL (Url.js_trim s) = Some u ->
        new_URL (Url.js_trim s') = Some u' ->
        Url.protocol u = Url.protocol u' -> Url.host u = Url.host u' ->
        originPatternFromServerUrl new_URL s = originPatternFromServerUrl new_URL s')
  /\ (forall new_URL s, new_URL (Url.js_trim s) = None ->
        originPatternFromServerUrl new_URL s
        = Throw (PlainError "Invalid server URL. Use a full URL like https://api.context-vault.com"))
  /\ (forall new_URL s u, new_URL (Url.js_trim s) = Some u ->
        Url.protocol u <> "http:" -> Url.protocol u <> "https:" ->
        originPatternFromServerUrl new_URL s
        = Throw (PlainError "Server URL must use http:// or https://"))
  /\ (forall new_URL contains request s e, originPatternFromServerUrl new_URL s = Throw e ->
        ensureServerPermission new_URL contains request s = ([], Throw e))
  /\ (forall new_URL contains request s p, originPatternFromServerUrl new_URL s = Return p ->
        contains p = false -> request p = false ->
        ensureServerPermission new_URL contains request s
        = ([PermContains p; PermRequest p],
           Throw (PlainError ("Permission denied for " ++ p
                              ++ ". Allow host access to connect this server."))))
  /\ originPatternFromServerUrl Url.parse "https://api.example.com/x"
     = Return "https://api.example.com/*"
  /\ originPatternFromServerUrl Url.parse "http://localhost:3000/api"
     = Return "http://localhost:3000/*"
  /\ originPatternFromServerUrl Url.parse "https://api.example.com:443/x"
     = Return "https://api.example.com/*".
Proof.
  assert (Hret : forall new_URL s u, new_URL (Url.js_trim s) = Some u ->
            (Url.protocol u = "http:" \/ Url.protocol u = "https:") ->
            originPatternFromServerUrl new_URL s
            = Return (Url.protocol u ++ "//" ++ Url.host u ++ "/*")).
  { intros new_URL s u H Hp. unfold originPatternFromServerUrl. rewrite H.
    destruct Hp as [-> | ->]; reflexivity. }
  split; [|split; [exact Hret|split; [|split; [|split; [|split; [|split]]]]]].
  - intros new_URL s p H. unfold originPatternFromServerUrl in H.
    destruct (new_URL (Url.js_trim s)) as [u|]; [|discriminate].
    exists u. split; [reflexivity|].
    destruct (String.eqb_spec (Url.protocol u) "https:");
      destruct (String.eqb_spec (Url.protocol u) "http:"); simpl in H;
      try discriminate; injection H as <-; auto.
  - intros new_URL s s' u u' H H' Hp Hh.
    unfold originPatternFromServerUrl. rewrite H, H', Hp, Hh. reflexivity.
  - intros new_URL s H. unfold originPatternFromServerUrl. rewrite H. reflexivity.
  - intros new_URL s u H Hh Hhs. unfold originPatternFromServerUrl. rewrite H.
    apply String.eqb_neq in Hh, Hhs. rewrite Hh, Hhs. reflexivity.
  - intros new_URL contains request s e H. unfold ensureServerPermission. rewrite H. reflexivity.
  - intros new_URL contains request s p H Hc Hr. unfold ensureServerPermission.
    rewrite H, Hc, Hr. reflexivity.
  - repeat split; reflexivity.
Qed.

Lemma ensureServerPermission_pattern_witness :
  originPatternFromServerUrl Url.parse "https://api.example.com/x"
  = originPatternFromServerUrl Url.parse "https://api.example.com/y?q=1#f"
  /\ ensureServerPermission Url.parse (fun _ => false) (fun _ => false) "https://api.example.com/x"
     = ([PermContains "https://api.example.com/*"; PermRequest "https://api.example.com/*"],
        Throw (PlainError "Permission denied for https://api.example.com/*. Allow host access to connect this server.")).
Proof.
  destruct ensureServerPermission_pattern
    as (_ & _ & Hpath & _ & _ & _ & Hdecl & Hex & _ & _).
  split.
  - apply (Hpath Url.parse _ _
             {| Url.protocol := "https:"; Url.host := "api.example.com";
                Url.pathname := "/x"; Url.hash := "" |}
             {| Url.protocol := "https:"; Url.host := "api.example.com";
                Url.pathname := "/y"; Url.hash := "#f" |});
      reflexivity.
  - apply (Hdecl Url.parse (fun _ => false) (fun _ => false)); [exact Hex | reflexivity | reflexivity].
Defined.

(* ------------------------------------------------------------------ *)
(** ** OAuth tab lifecycle ([oauth.ts])

    The module-level variables are the fields of [OState]; the stored
    [resolve] and [reject] functions are named by the id of the flow
    (the promise) they settle, and [setTimeout] handles by a timer id.
    The browser's side is explicit: [timers] are the armed timers,
    [createCbs] the [chrome.tabs.create] callbacks not yet delivered,
    [listeners] the registered [chrome.tabs.onRemoved] listeners,
    [tabsCreated] the number of [chrome.tabs.create] calls, [closed] the
    [chrome.tabs.remove] calls, and [settled] how each flow settled (a
    promise settles once: later calls to its functions do nothing). *)

Module OAuth.

Inductive Settlement :=
| Resolved (apiKey : string) (encryptionSecret : option string)
| Rejected (message : string).

Record OState := {
  pendingTabId : option Z;
  pendingResolve : option nat;
  pendingReject : option nat;
  pendingTimeout : option nat;
  timers : list nat;
  createCbs : nat;
  listeners : list nat;
  tabsCreated : nat;
  closed : list Z;
  settled : list (nat * Settlement);
  started : list (Outcome nat);
  fresh : nat
}.

Definition init : OState :=
  {| pendingTabId := None; pendingResolve := None; pendingReject := None;
     pendingTimeout := None; timers := []; createCbs := 0; listeners := [];
     tabsCreated := 0; closed := []; settled := []; started := []; fresh := 0 |}.

Definition CALLBACK_HOST : string := "app.context-vault.com".
Definition CALLBACK_PATH : string := "/auth/callback".

Definition set_timers (ts : list nat) (st : OState) : OState :=
  {| pendingTabId := pendingTabId st; pendingResolve := pendingResolve st;
     pendingReject := pendingReject st; pendingTimeout := pendingTimeout st;
     timers := ts; createCbs := createCbs st; listeners := listeners st;
     tabsCreated := tabsCreated st; closed := closed st; settled := settled st;
     started := started st; fresh := fresh st |}.

Definition set_listeners (ls : list nat) (st : OState) : OState :=
  {| pendingTabId := pendingTabId st; pendingResolve := pendingResolve st;
     pendingReject := pendingReject st; pendingTimeout := pendingTimeout st;
     timers := timers st; createCbs := createCbs st; listeners := ls;
     tabsCreated := tabsCreated st; closed := closed st; settled := settled st;
     started := started st; fresh := fresh st |}.

(** [chrome.tabs.remove(tabId)] *)
Definition close_tab (t : Z) (st : OState) : OState :=
  {| pendingTabId := pendingTabId st; pendingResolve := pendingResolve st;
     pendingReject := pendingReject st; pendingTimeout := pendingTimeout st;
     timers := timers st; createCbs := createCbs st; listeners := listeners st;
     tabsCreated := tabsCreated st; closed := app (closed st) [t];
     settled := settled st; started := started st; fresh := fresh st |}.

Definition is_settled (f : nat) (st : OState) : bool :=
  existsb (fun '(g, _) => Nat.eqb g f) (settled st).

(** Calling a stored [resolve]/[reject] ([res?.(...)], [rej?.(...)]). *)
Definition settle (fn : option nat) (v : Settlement) (st : OState) : OState :=
  match fn with
  | None => st
  | Some f =>
    if is_settled f st then st else
    {| pendingTabId := pendingTabId st; pendingResolve := pendingResolve st;
       pendingReject := pendingReject st; pendingTimeout := pendingTimeout st;
       timers := timers st; createCbs := createCbs st; listeners := listeners st;
       tabsCreated := tabsCreated st; closed := closed st;
       settled := app (settled st) [(f, v)]; started := started st; fresh := fresh st |}
  end.

(** [cleanup()] *)
Definition cleanup (st : OState) : OState :=
  {| pendingTabId := None; pendingResolve := None; pendingReject := None;
     pendingTimeout := None;
     timers := match pendingTimeout st with
               | Some h => filter (fun t => negb (Nat.eqb t h)) (timers st)
               | None => timers st
               end;
     createCbs := createCbs st; listeners := listeners st;
     tabsCreated := tabsCreated st; closed := closed st; settled := settled st;
     started := started st; fresh := fresh st |}.

(** [reject(err)] *)
Definition reject (msg : string) (st : OState) : OState :=
  let rej := pendingReject st in
  let tabId := pendingTabId st in
  let st1 := cleanup st in
  let st2 := match tabId with Some t => close_tab t st1 | None => st1 end in
  settle rej (Rejected msg) st2.

(** [parsed.hash.slice(1)] *)
Definition slice1 (s : string) : string :=
  match s with EmptyString => EmptyString | String _ r => r end.

(** [handleOAuthTabUpdate(tabId, changeInfo)]; [url] is [changeInfo.url]. *)
Definition handleOAuthTabUpdate (tabId : Z) (url : option string) (st : OState) : OState :=
  match pendingTabId st with
  | None => st
  | Some p =>
    if negb (Z.eqb tabId p) then st else
    match url with
    | None => st
    | Some u =>
      if String.eqb u "" then st else
      match Url.parse u with
      | None => st
      | Some parsed =>
        if negb (String.eqb (Url.host parsed) CALLBACK_HOST)
           || negb (String.eqb (Url.pathname parsed) CALLBACK_PATH) then st else
        let params := Url.search_params (slice1 (Url.hash parsed)) in
        let token := Url.params_get params "token" in
        let encryptionSecret := Url.params_get params "encryption_secret" in
        let res := pendingResolve st in
        let tabToClose := p in
        let st1 := cleanup st in
        let st2 := close_tab tabToClose st1 in
        match token with
        | None | Some EmptyString => settle res (Resolved "" encryptionSecret) st2
        | Some tk => settle res (Resolved tk encryptionSecret) st2
        end
      end
    end
  end.

(** [startGoogleOAuth()]: its result is appended to [started]; a
    returned flow id is a promise that settles through [settled]. *)
Definition startGoogleOAuth (st : OState) : OState :=
  match pendingTabId st with
  | Some _ =>
    {| pendingTabId := pendingTabId st; pendingResolve := pendingResolve st;
       pendingReject := pendingReject st; pendingTimeout := pendingTimeout st;
       timers := timers st; createCbs := createCbs st; listeners := listeners st;
       tabsCreated := tabsCreated st; closed := closed st; settled := settled st;
       started := app (started st) [Throw (PlainError "Sign-in already in progress. Please complete or close the existing sign-in tab.")];
       fresh := fresh st |}
  | None =>
    let f := fresh st in
    {| pendingTabId := pendingTabId st; pendingResolve := Some f;
       pendingReject := Some f; pendingTimeout := Some f;
       timers := app (timers st) [f]; createCbs := S (createCbs st);
       listeners := listeners st; tabsCreated := S (tabsCreated st);
       closed := closed st; settled := settled st;
       started := app (started st) [Return f]; fresh := S f |}
  end.

(** The [chrome.tabs.create] callback, with [tab?.id] and whether
    [chrome.runtime.lastError] is set; it registers [onRemoved]. *)
Definition tabs_create_callback (tab : option Z) (lastError : bool) (st : OState) : OState :=
  let st0 := {| pendingTabId := pendingTabId st; pendingResolve := pendingResolve st;
                pendingReject := pendingReject st; pendingTimeout := pendingTimeout st;
                timers := timers st; createCbs := pred (createCbs st);
                listeners := listeners st; tabsCreated := tabsCreated st;
                closed := closed st; settled := settled st; started := started st;
                fresh := fresh st |} in
  match tab with
  | Some id =>
    if lastError || Z.eqb id 0 then reject "Failed to open sign-in tab." st0 else
    {| pendingTabId := Some id; pendingResolve := pendingResolve st0;
       pendingReject := pendingReject st0; pendingTimeout := pendingTimeout st0;
       timers := timers st0; createCbs := createCbs st0;
       listeners := app (listeners st0) [fresh st0]; tabsCreated := tabsCreated st0;
       closed := closed st0; settled := settled st0; started := started st0;
       fresh := S (fresh st0) |}
  | None => reject "Failed to open sign-in tab." st0
  end.

(** The listener [onRemoved] registered with id [lid]. *)
Definition onRemoved (lid : nat) (removedTabId : Z) (st : OState) : OState :=
  match pendingTabId st with
  | Some p =>
    if negb (Z.eqb removedTabId p) then st else
    let st1 := set_listeners (filter (fun l => negb (Nat.eqb l lid)) (listeners st)) st in
    match pendingReject st1 with
    | Some rej => settle (Some rej) (Rejected "Sign-in cancelled.") (cleanup st1)
    | None => st1
    end
  | None => st
  end.

(** The timer callback armed by [startGoogleOAuth]. *)
Definition timer_fire (t : nat) (st : OState) : OState :=
  if existsb (Nat.eqb t) (timers st) then
    reject "Sign-in timed out. Please try again."
      (set_timers (filter (fun x => negb (Nat.eqb x t)) (timers st)) st)
  else st.

Inductive OEvent :=
| Start
| CreateDone (tab : option Z) (lastError : bool)
| TimerFire (t : nat)
| TabUpdated (tabId : Z) (url : option string)
| TabRemoved (tabId : Z).

Definition step (e : OEvent) (st : OState) : OState :=
  match e with
  | Start => startGoogleOAuth st
  | CreateDone tab le => if Nat.eqb (createCbs st) 0 then st else tabs_create_callback tab le st
  | TimerFire t => timer_fire t st
  | TabUpdated id url => handleOAuthTabUpdate id url st
  | TabRemoved id => fold_left (fun s l => onRemoved l id s) (listeners st) st
  end.

Definition run (es : list OEvent) (st : OState) : OState :=
  fold_left (fun s e => step e s) es st.

Definition callback_url : string :=
  "https://app.context-vault.com/auth/callback#token=cv_abc&encryption_secret=s3cr%2Bt".

Example oauth_happy_path :
  let st := run [Start; CreateDone (Some 7%Z) false; TabUpdated 7 (Some callback_url)] init in
  settled st = [(0%nat, Resolved "cv_abc" (Some "s3cr+t"))] /\ closed st = [7%Z]
  /\ pendingTabId st = None /\ timers st = [].
Proof. vm_compute. repeat split. Qed.

End OAuth.

(** ** Lemmas on the OAuth flow *)

Lemma parse_empty : Url.parse "" = None.
Proof. reflexivity. Qed.

Lemma handle_other_tab : forall st t id url,
  OAuth.pendingTabId st = Some t -> id <> t -> OAuth.handleOAuthTabUpdate id url st = st.
Proof.
  intros st t id url Ht Hid. unfold OAuth.handleOAuthTabUpdate. rewrite Ht.
  apply Z.eqb_neq in Hid. rewrite Hid. reflexivity.
Qed.

Lemma settle_listeners : forall fn v st,
  OAuth.listeners (OAuth.settle fn v st) = OAuth.listeners st.
Proof.
  intros [f|] v st; unfold OAuth.settle; [destruct (OAuth.is_settled f st)|]; reflexivity.
Qed.

Lemma handle_listeners : forall t u st,
  OAuth.listeners (OAuth.handleOAuthTabUpdate t u st) = OAuth.listeners st.
Proof.
  intros t u st. unfold OAuth.handleOAuthTabUpdate.
  destruct (OAuth.pendingTabId st); [|reflexivity].
  destruct (negb _); [reflexivity|]. destruct u as [u|]; [|reflexivity].
  destruct (String.eqb u ""); [reflexivity|]. destruct (Url.parse u) as [p|]; [|reflexivity].
  destruct (_ || _); [reflexivity|].
  destruct (Url.params_get _ "token") as [[|c s]|]; rewrite settle_listeners; reflexivity.
Qed.

Lemma reject_listeners : forall msg st,
  OAuth.listeners (OAuth.reject msg st) = OAuth.listeners st.
Proof.
  intros msg st. unfold OAuth.reject. rewrite settle_listeners.
  destruct (OAuth.pendingTabId st); reflexivity.
Qed.

Lemma timer_fire_listeners : forall tm st,
  OAuth.listeners (OAuth.timer_fire tm st) = OAuth.listeners st.
Proof.
  intros tm st. unfold OAuth.timer_fire.
  destruct (existsb _ _); [|reflexivity]. rewrite reject_listeners. reflexivity.
Qed.

(** C6: with a tracked tab [t] whose flow [f] is still pending, an update
    of [t] to a URL whose host is [app.context-vault.com] and whose path is
    [/auth/callback] resolves [f] with the [token] of the fragment (or
    [""] when it has none) and its [encryption_secret], closes [t] and
    clears the pending slot; an update of [t] to any other URL, an update
    with no URL and an update of another tab leave the state as it is, so
    the flow stays pending. *)
Theorem handleOAuthTabUpdate_callback : forall st t f,
  OAuth.pendingTabId st = Some t -> OAuth.pendingResolve st = Some f ->
  OAuth.is_settled f st = false ->
  (forall u parsed, Url.parse u = Some parsed ->
     Url.host parsed = OAuth.CALLBACK_HOST -> Url.pathname parsed = OAuth.CALLBACK_PATH ->
     let params := Url.search_params (OAuth.slice1 (Url.hash parsed)) in
     let st' := OAuth.handleOAuthTabUpdate t (Some u) st in
     OAuth.settled st'
       = app (OAuth.settled st)
             [(f, OAuth.Resolved (match Url.params_get params "token" with
                                  | Some tk => tk | None => "" end)
                                 (Url.params_get params "encryption_secret"))]
     /\ OAuth.closed st' = app (OAuth.closed st) [t]
     /\ OAuth.pendingTabId st' = None /\ OAuth.pendingResolve st' = None
     /\ OAuth.pendingReject st' = None /\ OAuth.pendingTimeout st' = None)
  /\ (forall u, match Url.parse u with
                | None => True
                | Some parsed => Url.host parsed <> OAuth.CALLBACK_HOST
                                 \/ Url.pathname parsed <> OAuth.CALLBACK_PATH
                end ->
        OAuth.handleOAuthTabUpdate t (Some u) st = st)
  /\ OAuth.handleOAuthTabUpdate t None st = st
  /\ (forall id url, id <> t -> OAuth.handleOAuthTabUpdate id url st = st).
Proof.
  intros st t f Ht Hf Hs.
  split; [|split; [|split]].
  - intros u parsed Hp Hh Hpa.
    unfold OAuth.handleOAuthTabUpdate. rewrite Ht, Z.eqb_refl. cbn [negb].
    destruct (String.eqb_spec u "") as [->|_]; [rewrite parse_empty in Hp; discriminate|].
    rewrite Hp, Hh, Hpa, !String.eqb_refl. cbn [negb orb].
    destruct st as [a b c d e g h i j k l m]; simpl in Ht, Hf, Hs |- *. subst a b.
    destruct (Url.params_get _ "token") as [[|ch s]|];
      unfold OAuth.settle, OAuth.is_settled, OAuth.close_tab, OAuth.cleanup in *;
      cbn [OAuth.settled OAuth.closed OAuth.pendingTabId OAuth.pendingResolve
           OAuth.pendingReject OAuth.pendingTimeout] in *; rewrite Hs;
      repeat split; reflexivity.
  - intros u Hu. unfold OAuth.handleOAuthTabUpdate. rewrite Ht, Z.eqb_refl. cbn [negb].
    destruct (String.eqb u ""); [reflexivity|].
    destruct (Url.parse u) as [p|]; [|reflexivity].
    destruct Hu as [Hu|Hu]; apply String.eqb_neq in Hu; rewrite Hu;
      [reflexivity | rewrite orb_true_r; reflexivity].
  - unfold OAuth.handleOAuthTabUpdate. rewrite Ht, Z.eqb_refl. reflexivity.
  - intros id url Hid. exact (handle_other_tab st t id url Ht Hid).
Qed.

Definition oauth_tracked : OAuth.OState :=
  OAuth.run [OAuth.Start; OAuth.CreateDone (Some 7%Z) false] OAuth.init.

Definition callback_parsed : Url.URL :=
  {| Url.protocol := "https:"; Url.host := "app.context-vault.com";
     Url.pathname := "/auth/callback"; Url.hash := "#token=cv_abc&encryption_secret=s3cr%2Bt" |}.

Lemma parse_callback_url : Url.parse OAuth.callback_url = Some callback_parsed.
Proof. vm_compute. reflexivity. Qed.

Lemma handleOAuthTabUpdate_callback_witness :
  OAuth.settled (OAuth.handleOAuthTabUpdate 7 (Some OAuth.callback_url) oauth_tracked)
    = [(0%nat, OAuth.Resolved "cv_abc" (Some "s3cr+t"))]
  /\ OAuth.handleOAuthTabUpdate 7 (Some "https://app.context-vault.com/dashboard") oauth_tracked
     = oauth_tracked.
Proof.
  destruct (handleOAuthTabUpdate_callback oauth_tracked 7 0 eq_refl eq_refl eq_refl)
    as (Hcb & Hother & _ & _).
  split.
  - destruct (Hcb OAuth.callback_url callback_parsed parse_callback_url eq_refl eq_refl) as [Hs _].
    rewrite Hs. vm_compute. reflexivity.
  - apply Hother. vm_compute. right. discriminate.
Defined.

(** C3: [startGoogleOAuth] refuses a second flow only once [pendingTabId]
    is set, which happens in the [chrome.tabs.create] callback.  A call
    made after a first one but before that callback is accepted: it
    replaces the first flow's [resolve], [reject] and timer, and a second
    sign-in tab is opened.  Completing the second flow then leaves the
    first promise pending for good, its timer armed but unable to settle
    it.  When [pendingTabId] is set, a call only fails with "Sign-in
    already in progress". *)
Theorem startGoogleOAuth_second_flow_before_tab_created :
  (forall st t, OAuth.pendingTabId st = Some t ->
     OAuth.started (OAuth.startGoogleOAuth st)
       = app (OAuth.started st)
             [Throw (PlainError "Sign-in already in progress. Please complete or close the existing sign-in tab.")]
     /\ OAuth.pendingResolve (OAuth.startGoogleOAuth st) = OAuth.pendingResolve st
     /\ OAuth.tabsCreated (OAuth.startGoogleOAuth st) = OAuth.tabsCreated st)
  /\ (let st1 := OAuth.run [OAuth.Start] OAuth.init in
      let st2 := OAuth.run [OAuth.Start; OAuth.Start] OAuth.init in
      OAuth.pendingResolve st1 = Some 0%nat /\ OAuth.is_settled 0 st1 = false
      /\ OAuth.started st2 = [Return 0%nat; Return 1%nat]
      /\ OAuth.pendingResolve st2 = Some 1%nat
      /\ OAuth.tabsCreated st2 = 2%nat)
  /\ (let st3 := OAuth.run [OAuth.Start; OAuth.Start;
                            OAuth.CreateDone (Some 7%Z) false; OAuth.CreateDone (Some 8%Z) false;
                            OAuth.TabUpdated 8 (Some OAuth.callback_url);
                            OAuth.TimerFire 0] OAuth.init in
      OAuth.settled st3 = [(1%nat, OAuth.Resolved "cv_abc" (Some "s3cr+t"))]
      /\ OAuth.is_settled 0 st3 = false
      /\ OAuth.closed st3 = [8%Z]).
Proof.
  split.
  - intros st t Ht. unfold OAuth.startGoogleOAuth. rewrite Ht. repeat split.
  - split; vm_compute; repeat split.
Qed.

(** C7: the terminal paths clear the timer and the pending references,
    so a new [startGoogleOAuth] is accepted afterwards, but only the
    tab-closure path deregisters the [onRemoved] listener: resolution and
    the time-out leave [listeners] as they are, and the listener, whose
    [pendingTabId] test then always fails, stays registered for good. *)
Theorem oauth_listener_left_registered :
  (forall t u st, OAuth.listeners (OAuth.handleOAuthTabUpdate t u st) = OAuth.listeners st)
  /\ (forall tm st, OAuth.listeners (OAuth.timer_fire tm st) = OAuth.listeners st)
  /\ (let stR := OAuth.run [OAuth.Start; OAuth.CreateDone (Some 7%Z) false;
                            OAuth.TabUpdated 7 (Some OAuth.callback_url); OAuth.TabRemoved 7]
                           OAuth.init in
      OAuth.settled stR = [(0%nat, OAuth.Resolved "cv_abc" (Some "s3cr+t"))]
      /\ OAuth.closed stR = [7%Z] /\ OAuth.timers stR = []
      /\ OAuth.listeners stR = [1%nat]
      /\ OAuth.started (OAuth.step OAuth.Start stR) = [Return 0%nat; Return 2%nat])
  /\ (let stT := OAuth.run [OAuth.Start; OAuth.CreateDone (Some 7%Z) false;
                            OAuth.TimerFire 0; OAuth.TabRemoved 7] OAuth.init in
      OAuth.settled stT = [(0%nat, OAuth.Rejected "Sign-in timed out. Please try again.")]
      /\ OAuth.closed stT = [7%Z] /\ OAuth.timers stT = []
      /\ OAuth.listeners stT = [1%nat])
  /\ (let stC := OAuth.run [OAuth.Start; OAuth.CreateDone (Some 7%Z) false;
                            OAuth.TabRemoved 7] OAuth.init in
      OAuth.settled stC = [(0%nat, OAuth.Rejected "Sign-in cancelled.")]
      /\ OAuth.timers stC = [] /\ OAuth.listeners stC = []).
Proof.
  split; [exact handle_listeners|].
  split; [exact timer_fire_listeners|].
  split; [|split]; vm_compute; repeat split.
Qed.

(* ------------------------------------------------------------------ *)
(** ** More of the gateway client *)

(** The headers [apiFetch] sends for settings [s] that passed the
    configuration check. *)
Definition request_headers (s : Settings) : list (string * string) :=
  let headers1 := app [("Content-Type", "application/json")]
                      [("Authorization", "Bearer " ++ apiKey s)] in
  if String.eqb (encryptionSecret s) "" then headers1
  else app headers1 [("X-Vault-Secret", encryptionSecret s)].

(** The backoff delays the loop may have waited, from attempt [a] on. *)
Definition backoff_from (a : nat) : list Z := skipn a RETRY_BACKOFF_MS.

Lemma retry_loop_events : forall (P : Event -> Prop) jsN net ev n attempt le g g' tr o,
  P ev -> (forall ms, P (EvSleep ms)) -> (forall kv, P (EvStore kv)) ->
  retry_loop jsN net ev n attempt le g = (g', tr, o) ->
  Forall P tr.
Proof.
  intros P jsN net ev n. induction n as [|n IH]; intros attempt le g g' tr o Hev Hs Hst H.
  - inversion H; constructor.
  - cbn [retry_loop] in H.
    destruct (negb _); [inversion H; constructor|].
    destruct (net attempt) as [s st b h1 h2 | e];
    [destruct (res_ok s);
     [unfold updateRateLimitCache in H;
      destruct h1, h2; inversion H; subst; repeat constructor; auto|]|];
    unfold sleep_if_more in H;
    repeat match goal with
    | H : context [retry_loop ?a ?b ?c ?m ?d ?e ?f] |- _ =>
        let R := fresh "R" in
        destruct (retry_loop a b c m d e f) as [[?g0 ?tr0] ?o0] eqn:R;
        apply IH in R; [|exact Hev|exact Hs|exact Hst]
    | H : context [if ?c then _ else _] |- _ => destruct c
    | H : context [match ?x with APIError _ _ _ => _ | _ => _ end] |- _ => destruct x
    | H : context [match ?x with JNull _ => _ | _ => _ end] |- _ => destruct x
    | H : (_, _, _) = (_, _, _) |- _ => injection H; intros; subst; clear H
    | H : _ |- _ => progress (simpl in H)
    end;
    repeat constructor; auto.
Qed.

Lemma getSettings_again : forall g,
  getSettings (fst (getSettings g)) = (fst (getSettings g), snd (getSettings g)).
Proof. intros [[s|] r st]; reflexivity. Qed.

Lemma fetch_count_cons : forall e tr,
  fetch_count (e :: tr) = ((if is_fetch e then 1 else 0) + fetch_count tr)%nat.
Proof. intros e tr. unfold fetch_count. simpl. destruct (is_fetch e); reflexivity. Qed.

Lemma fetch_count_app : forall a b, fetch_count (app a b) = (fetch_count a + fetch_count b)%nat.
Proof. intros a b. unfold fetch_count. rewrite filter_app, length_app. reflexivity. Qed.

Lemma sleeps_app : forall a b, sleeps (app a b) = app (sleeps a) (sleeps b).
Proof. intros a b. unfold sleeps. apply flat_map_app. Qed.

(** One iteration of the loop: it ends after this attempt (having
    stored rate-limit headers at most), or it goes on to the next attempt
    after the backoff delay, if one is left. *)
Lemma retry_loop_step : forall jsN net ev n attempt le g g' tr o,
  (attempt <= 2)%nat ->
  retry_loop jsN net ev (S n) attempt le g = (g', tr, o) ->
  (tr = [ev] \/ exists kv, tr = [ev; EvStore kv])
  \/ exists le' tr', retry_loop jsN net ev n (S attempt) le' g = (g', tr', o)
                    /\ tr = ev :: app (sleep_if_more attempt) tr'.
Proof.
  intros jsN net ev n attempt le g g' tr o Ha H.
  cbn [retry_loop] in H.
  assert (Hle : (attempt <=? List.length RETRY_BACKOFF_MS)%nat = true)
    by (apply Nat.leb_le; simpl; lia).
  rewrite Hle in H. cbn [negb] in H.
  destruct (net attempt) as [s st b h1 h2 | e].
  - destruct (res_ok s).
    + unfold updateRateLimitCache in H. left.
      destruct h1, h2; inversion H; subst; eauto.
    + destruct b as [v f|v|e0]; cbv beta iota zeta in H.
      2: { destruct (retry_loop jsN net ev n (S attempt) _ g) as [[g0 tr0] o0] eqn:R.
           inversion H; subst. right. do 2 eexists. split; [exact R|reflexivity]. }
      all: destruct (no_retry s) eqn:Hnr.
      all: try (simpl in H; rewrite ?Hnr in H; left; left; inversion H; reflexivity).
      all: destruct (attempt <? List.length RETRY_BACKOFF_MS)%nat eqn:Hlt.
      all: try (destruct (retry_loop jsN net ev n (S attempt) _ g) as [[g0 tr0] o0] eqn:R;
                inversion H; subst; right; do 2 eexists; split; [exact R|];
                unfold sleep_if_more; rewrite Hlt; reflexivity).
      all: simpl in H; rewrite ?Hnr in H;
           destruct (retry_loop jsN net ev n (S attempt) _ g) as [[g0 tr0] o0] eqn:R;
           inversion H; subst; right; do 2 eexists; split; [exact R|reflexivity].
  - destruct (is_AbortError e) eqn:Hab;
    destruct (attempt <? List.length RETRY_BACKOFF_MS)%nat eqn:Hlt;
    cbv beta iota zeta in H;
    repeat match goal with
    | H : context [match ?x with APIError _ _ _ => _ | _ => _ end] |- _ => destruct x
    end;
    cbv beta iota zeta in H;
    repeat match goal with
    | H : context [if no_retry ?s then _ else _] |- _ => destruct (no_retry s)
    end;
    repeat match goal with
    | H : context [retry_loop ?a ?b ?c n ?d ?e ?f] |- _ =>
        let R := fresh "R" in destruct (retry_loop a b c n d e f) as [[g0 tr0] o0] eqn:R
    end;
    inversion H; subst;
    first [ left; left; reflexivity
          | right; do 2 eexists; split; [eassumption| unfold sleep_if_more; rewrite Hlt; reflexivity] ].
Qed.

(** From attempt [a], the loop makes at most [3 - a] attempts and waits
    a prefix of the remaining backoff delays. *)
Lemma retry_loop_bound : forall jsN net ev n attempt le g g' tr o,
  is_fetch ev = true -> (attempt <= 3)%nat ->
  retry_loop jsN net ev n attempt le g = (g', tr, o) ->
  (fetch_count tr <= 3 - attempt)%nat
  /\ exists k, sleeps tr = firstn k (backoff_from attempt).
Proof.
  intros jsN net ev n. induction n as [|n IH]; intros attempt le g g' tr o Hev Ha H.
  - inversion H; subst. split; [apply Nat.le_0_l|]. exists 0%nat. reflexivity.
  - destruct (Nat.eq_dec attempt 3) as [->|Hne].
    + rewrite retry_loop_exit in H. inversion H; subst.
      split; [apply Nat.le_0_l|]. exists 0%nat. reflexivity.
    + destruct (retry_loop_step jsN net ev n attempt le g g' tr o ltac:(lia) H)
        as [[-> | [kv ->]] | (le' & tr' & R & ->)].
      * split; [rewrite fetch_count_cons, Hev; change (fetch_count []) with 0%nat; lia|].
        exists 0%nat. unfold sleeps; simpl. destruct ev; reflexivity || discriminate.
      * split; [rewrite !fetch_count_cons, Hev; change (fetch_count []) with 0%nat;
                cbn [is_fetch]; lia|].
        exists 0%nat. unfold sleeps; simpl. destruct ev; reflexivity || discriminate.
      * destruct (IH (S attempt) le' g g' tr' o Hev ltac:(lia) R) as [Hc [k Hk]].
        rewrite fetch_count_cons, Hev, fetch_count_app.
        unfold sleep_if_more. change (List.length RETRY_BACKOFF_MS) with 2%nat.
        destruct (Nat.ltb_spec attempt 2) as [Hlt|Hge].
        -- split; [change (fetch_count [EvSleep (backoff attempt)]) with 0%nat; lia|]. exists (S k).
           change (sleeps (ev :: app [EvSleep (backoff attempt)] tr'))
             with (sleeps (app [ev; EvSleep (backoff attempt)] tr')).
           rewrite sleeps_app, Hk. unfold sleeps at 1. simpl.
           destruct ev; try discriminate. unfold backoff_from, backoff.
           destruct attempt as [|[|]]; [reflexivity|reflexivity|lia].
        -- split; [change (fetch_count []) with 0%nat; lia|]. exists 0%nat.
           change (sleeps (ev :: app [] tr')) with (sleeps (app [ev] tr')).
           rewrite sleeps_app, Hk. unfold sleeps at 1. simpl.
           destruct ev; try discriminate.
           assert (attempt = 2)%nat by lia. subst attempt.
           destruct k; reflexivity.
Qed.

(** X1: every request [apiFetch] makes goes to the configured server URL
    (one trailing slash removed) followed by the path, with the caller's
    method and body, the JSON content type, the bearer credential, and the
    encryption secret header exactly when a secret is configured. *)
Theorem apiFetch_request_target : forall jsN tlt net now path options g,
  let s := snd (getSettings g) in
  Forall (fun e => is_fetch e = true ->
                   e = EvFetch (strip_trailing_slash (serverUrl s) ++ path) (method options)
                               (request_headers s) (reqBody options))
         (snd (fst (apiFetch jsN tlt net now path options g))).
Proof.
  intros jsN tlt net now path options g s. subst s. unfold apiFetch.
  pose proof (getSettings_again g) as Hg2.
  destruct (getSettings g) as [g1 s] eqn:E. cbn [fst snd] in Hg2 |- *.
  destruct (String.eqb (serverUrl s) "") eqn:Hs; [repeat constructor; discriminate|].
  destruct (String.eqb (apiKey s) "") eqn:Hk; [repeat constructor; discriminate|].
  rewrite Hg2.
  destruct (cachedRateLimit g1) as [rl|];
    [destruct (Qle_bool (remaining rl) 0 && Qltb (now # 1000) (resetAt rl));
     [repeat constructor; discriminate|]|].
  all: match goal with |- context [retry_loop ?j ?nt ?ev ?n ?a ?le ?gg] =>
         destruct (retry_loop j nt ev n a le gg) as [[g3 tr3] o3] eqn:R end.
  all: cbn [fst snd]; constructor; [discriminate|]; constructor; [discriminate|].
  all: eapply retry_loop_events; [| | | exact R]; [|intros ms H; discriminate|intros kv H; discriminate].
  all: intros _; unfold request_headers; reflexivity.
Qed.

(** X2: whatever the network does, a gateway call makes at most three
    requests, and the delays it waits between them are none, 1000 ms, or
    1000 ms then 3000 ms. *)
Theorem apiFetch_attempt_bound : forall jsN tlt net now path options g,
  let tr := snd (fst (apiFetch jsN tlt net now path options g)) in
  (fetch_count tr <= 3)%nat
  /\ (sleeps tr = [] \/ sleeps tr = [1000%Z] \/ sleeps tr = [1000%Z; 3000%Z]).
Proof.
  intros jsN tlt net now path options g tr. subst tr. unfold apiFetch.
  destruct (getSettings g) as [g1 s].
  destruct (String.eqb (serverUrl s) ""); [split; [cbv; lia|left; reflexivity]|].
  destruct (String.eqb (apiKey s) ""); [split; [cbv; lia|left; reflexivity]|].
  destruct (cachedRateLimit g1) as [rl|];
    [destruct (Qle_bool (remaining rl) 0 && Qltb (now # 1000) (resetAt rl));
     [split; [cbv; lia|left; reflexivity]|]|].
  all: destruct (getSettings g1) as [g2 s2].
  all: match goal with |- context [retry_loop ?j ?nt ?ev ?n ?a ?le ?gg] =>
         destruct (retry_loop j nt ev n a le gg) as [[g3 tr3] o3] eqn:R end.
  all: apply retry_loop_bound in R; [|reflexivity|lia].
  all: destruct R as [Hc [k Hk]]; cbn [fst snd].
  all: rewrite fetch_count_cons; cbn [is_fetch]; rewrite fetch_count_cons; cbn [is_fetch].
  all: split; [lia|].
  all: change (sleeps (EvConfigCheck :: EvPreflight :: tr3)) with (sleeps tr3); rewrite Hk.
  all: destruct k as [|[|[|k]]]; [left|right; left|right; right|right; right]; reflexivity.
Qed.


Definition is_network_error (ty : bool) (msg : string) : bool :=
  (ty && (test_ci "fetch" msg || test_ci "network" msg))
  || String.eqb msg "Failed to fetch"
  || test_ci "ECONNREFUSED" msg || test_ci "ECONNRESET" msg
  || test_ci "ENOTFOUND" msg.

Lemma friendlyError_other : forall e,
  (forall m st c, e <> APIError m st c) ->
  friendlyError (Some e) =
    if is_network_error (is_TypeError e) (err_message e) then
      APIError "Could not reach the server. Check your connection and server URL."
        0 (Some NETWORK_ERROR)
    else if test_ci "timed out" (err_message e) then APIError (err_message e) 0 (Some TIMEOUT)
    else if test_ci "not configured" (err_message e) then
      APIError (err_message e) 0 (Some NOT_CONFIGURED)
    else if is_Error e then e else PlainError (err_message e).
Proof.
  intros [m st c|m|n m|m|m|m] H; [exfalso; exact (H m st c eq_refl)|..]; reflexivity.
Qed.

(** X5: [friendlyError] always yields an [Error] object (never a bare
    thrown value), and applying it again changes nothing. *)
Theorem friendlyError_idempotent : forall le,
  is_Error (friendlyError le) = true
  /\ friendlyError (Some (friendlyError le)) = friendlyError le.
Proof.
  intros [e|]; [|split; reflexivity].
  destruct (match e with APIError _ _ _ => true | _ => false end) eqn:Ea.
  { destruct e; try discriminate; split; reflexivity. }
  assert (Hna : forall e', match e' with APIError _ _ _ => true | _ => false end = false ->
                 forall m st c, e' <> APIError m st c)
    by (intros e' H' m st c ->; discriminate).
  rewrite (friendlyError_other e (Hna e Ea)).
  destruct (is_network_error (is_TypeError e) (err_message e)) eqn:N;
    [split; reflexivity|].
  destruct (test_ci "timed out" (err_message e)) eqn:T; [split; reflexivity|].
  destruct (test_ci "not configured" (err_message e)) eqn:C; [split; reflexivity|].
  destruct e as [m st c|m|n m|m|m|m]; try discriminate;
    cbn [is_Error]; (split; [reflexivity|]);
    (rewrite friendlyError_other; [|intros ? ? ? H; discriminate H]);
    cbn [err_message is_TypeError is_Error] in *; rewrite ?N, ?T, ?C; try reflexivity.
Qed.


(* ------------------------------------------------------------------ *)
(** ** Background message handlers and context-menu titles ([index.ts]) *)

(** [DEFAULT_SETTINGS.serverUrl] *)
Definition DEFAULT_serverUrl : string := "https://api.context-vault.com".

(** [isConnected(serverUrl, apiKey)]: [Boolean(serverUrl && apiKey)]. *)
Definition isConnected (serverUrl apiKey : string) : bool :=
  negb (String.eqb serverUrl "") && negb (String.eqb apiKey "").

(** The [MessageType] replies produced by the handlers modelled here;
    [MCaptureResult v] is [{ type: "capture_result", id: entry.id }] for
    the entry [v] the gateway call resolved to. *)
Inductive Message :=
| MSettings (serverUrl apiKey encryptionSecret : string) (connected : bool)
| MError (message : string)
| MHealth (reachable : bool)
| MCaptureResult (entry : nat).

(** Observable effects of the background worker, in order. *)
Inductive BgEvent :=
| BgPerm (e : PermEvent)
| BgNet (e : Event)
| BgStorageSet (kvs : list (string * string))
| BgBadgeText (text : string)
| BgBadgeColor (color : string)
| BgSendTab (tabId : Z) (m : Message).

(** [updateBadge(connected)] *)
Definition updateBadge (connected : bool) : list BgEvent :=
  if connected then [BgBadgeText ""]
  else [BgBadgeText "!"; BgBadgeColor "#dc2626"].

(** The badge set by [onInstalled] from the stored values. *)
Definition onInstalled_badge (st : Storage) : list BgEvent :=
  updateBadge (isConnected (or_empty (st_serverUrl st)) (or_empty (st_apiKey st))).

(** [stored.x || d]: an absent or empty stored string gives [d]. *)
Definition or_default (o : option string) (d : string) : string :=
  match o with Some s => if String.eqb s "" then d else s | None => d end.

(** [handleMessage] on [get_settings]: reads [chrome.storage.local]
    directly, not the gateway's cache. *)
Definition handleGetSettings (g : Gw) : Message :=
  let stored := storage g in
  let serverUrl := or_default (st_serverUrl stored) DEFAULT_serverUrl in
  let apiKey := or_empty (st_apiKey stored) in
  let encryptionSecret := or_empty (st_encryptionSecret stored) in
  MSettings serverUrl apiKey encryptionSecret (isConnected serverUrl apiKey).

(** [handleMessage] on [save_settings], with the platform's [new URL]
    as [new_URL] and the browser's answers to [permissions.contains] and
    [permissions.request] given as [contains] and [request].  [secret] is
    the optional [message.encryptionSecret]. *)
Definition handleSaveSettings (new_URL : string -> option Url.URL)
  (contains request : string -> bool)
  (srv key : string) (secret : option string) (g : Gw)
  : Gw * list BgEvent * Message :=
  let serverUrl := strip_trailing_slash (Url.js_trim srv) in
  let apiKey := Url.js_trim key in
  let encryptionSecret := match secret with Some s => Url.js_trim s | None => "" end in
  if String.eqb serverUrl "" then (g, [], MError "Server URL is required")
  else
    let '(pev, o) := ensureServerPermission new_URL contains request serverUrl in
    match o with
    | Throw e =>
      (g, map BgPerm pev,
       MError (if is_Error e then err_message e else "Permission request failed"))
    | Return _ =>
      let st := storage g in
      let st' := {| st_serverUrl := Some serverUrl; st_apiKey := Some apiKey;
                    st_encryptionSecret := Some encryptionSecret;
                    st_rateLimitRemaining := st_rateLimitRemaining st;
                    st_rateLimitReset := st_rateLimitReset st |} in
      let g1 := clearSettingsCache {| cachedSettings := cachedSettings g;
                                      cachedRateLimit := cachedRateLimit g;
                                      storage := st' |} in
      let connected := isConnected serverUrl apiKey in
      (g1,
       app (map BgPerm pev)
           (app [BgStorageSet [("serverUrl", serverUrl); ("apiKey", apiKey);
                               ("encryptionSecret", encryptionSecret)]]
                (updateBadge connected)),
       MSettings serverUrl apiKey encryptionSecret connected)
    end.

(** [probeServer(timeoutMs)]: one [fetch] without headers, whose outcome
    is [o] (a timeout is the abort's rejection). *)
Definition probeServer (o : FetchOutcome) (g : Gw) : Gw * list Event * bool :=
  let '(g1, s) := getSettings g in
  if String.eqb (serverUrl s) "" then (g1, [], false)
  else
    (g1, [EvFetch (strip_trailing_slash (serverUrl s) ++ "/api/vault/status") None [] None],
     match o with
     | Reject _ => false
     | Resp status _ _ _ _ => res_ok status
     end).

(** [handleMessage] on [check_health] *)
Definition handleCheckHealth (o : FetchOutcome) (g : Gw) : Gw * list BgEvent * Message :=
  let '(g1, evs, reachable) := probeServer o g in
  (g1, app (map BgNet evs) (updateBadge reachable), MHealth reachable).

(** [selected.slice(0, 80) + (selected.length > 80 ? "..." : "")] *)
Definition menu_title (selected : string) : string :=
  substring 0 80 selected ++ (if (80 <? String.length selected)%nat then "..." else "").

(** ** Lemmas on the background handlers *)

Lemma append_empty : forall s, s ++ "" = s.
Proof. induction s as [|c s IH]; simpl; [reflexivity|rewrite IH; reflexivity]. Qed.

Lemma substring_0_length : forall s n,
  String.length (substring 0 n s) = Nat.min n (String.length s).
Proof.
  induction s as [|c s IH]; intros [|n]; simpl; auto.
Qed.

Lemma substring_0_all : forall s n, (String.length s <= n)%nat -> substring 0 n s = s.
Proof.
  induction s as [|c s IH]; intros [|n] H; simpl in *; auto; try lia.
  rewrite IH by lia. reflexivity.
Qed.

Lemma length_str_app : forall a b, String.length (a ++ b) = (String.length a + String.length b)%nat.
Proof. induction a as [|c a IH]; intros b; simpl; auto. Qed.

(** X6: a successful [save_settings] stores the trimmed values, clears
    the settings cache, so the gateway's [getSettings] and
    [get_settings] both return what was saved, and keeps the cached rate
    limit. *)
Theorem handleSaveSettings_saved : forall new_URL contains request srv key secret g g' evs u k s c,
  handleSaveSettings new_URL contains request srv key secret g = (g', evs, MSettings u k s c) ->
  u = strip_trailing_slash (Url.js_trim srv) /\ u <> "" /\ k = Url.js_trim key
  /\ c = isConnected u k
  /\ snd (getSettings g') = {| serverUrl := u; apiKey := k; encryptionSecret := s |}
  /\ handleGetSettings g' = MSettings u k s c
  /\ cachedRateLimit g' = cachedRateLimit g.
Proof.
  intros new_URL contains request srv key secret g g' evs u k s c H.
  unfold handleSaveSettings in H.
  destruct (String.eqb (strip_trailing_slash (Url.js_trim srv)) "") eqn:E; [discriminate|].
  destruct (ensureServerPermission new_URL contains request (strip_trailing_slash (Url.js_trim srv)))
    as [pev [o|e]]; [|discriminate].
  injection H as <- <- <- <- <- <-.
  apply String.eqb_neq in E.
  repeat split; try reflexivity; [exact E|].
  unfold handleGetSettings; simpl. unfold or_default.
  apply String.eqb_neq in E. rewrite E. reflexivity.
Qed.

Lemma handleSaveSettings_saved_witness :
  handleSaveSettings Url.parse (fun _ => false) (fun _ => true) " https://api.x.com/ " " k " None sample_gw
  = ({| cachedSettings := None; cachedRateLimit := None;
        storage := {| st_serverUrl := Some "https://api.x.com"; st_apiKey := Some "k";
                      st_encryptionSecret := Some ""; st_rateLimitRemaining := None;
                      st_rateLimitReset := None |} |},
     [BgPerm (PermContains "https://api.x.com/*"); BgPerm (PermRequest "https://api.x.com/*");
      BgStorageSet [("serverUrl", "https://api.x.com"); ("apiKey", "k"); ("encryptionSecret", "")];
      BgBadgeText ""],
     MSettings "https://api.x.com" "k" "" true)
  /\ handleGetSettings {| cachedSettings := None; cachedRateLimit := None;
        storage := {| st_serverUrl := Some "https://api.x.com"; st_apiKey := Some "k";
                      st_encryptionSecret := Some ""; st_rateLimitRemaining := None;
                      st_rateLimitReset := None |} |} = MSettings "https://api.x.com" "k" "" true.
Proof.
  assert (H : handleSaveSettings Url.parse (fun _ => false) (fun _ => true) " https://api.x.com/ " " k " None
                sample_gw
    = ({| cachedSettings := None; cachedRateLimit := None;
          storage := {| st_serverUrl := Some "https://api.x.com"; st_apiKey := Some "k";
                        st_encryptionSecret := Some ""; st_rateLimitRemaining := None;
                        st_rateLimitReset := None |} |},
       [BgPerm (PermContains "https://api.x.com/*"); BgPerm (PermRequest "https://api.x.com/*");
        BgStorageSet [("serverUrl", "https://api.x.com"); ("apiKey", "k"); ("encryptionSecret", "")];
        BgBadgeText ""],
       MSettings "https://api.x.com" "k" "" true)) by reflexivity.
  split; [exact H|].
  exact (proj1 (proj2 (proj2 (proj2 (proj2 (proj2 (handleSaveSettings_saved _ _ _ _ _ _ _ _ _ _ _ _ _ H))))))).
Defined.

(** X9: [save_settings] clears the settings cache but not the rate-limit
    cache: after an exhausted rate limit, saving any server and key
    (another server included) leaves every gateway call refused with 429
    before any request, until the reset time. *)
Theorem handleSaveSettings_keeps_rate_limit :
  forall jsN tlt net now path options new_URL contains request srv key secret g g' evs u k s rl,
  handleSaveSettings new_URL contains request srv key secret g = (g', evs, MSettings u k s true) ->
  cachedRateLimit g = Some rl ->
  Qle_bool (remaining rl) 0 && Qltb (now # 1000) (resetAt rl) = true ->
  apiFetch jsN tlt net now path options g'
  = (fst (getSettings g'), [EvConfigCheck; EvPreflight],
     Throw (APIError ("Rate limit exhausted. Resets at " ++ tlt (resetAt rl * 1000) ++ ".")
                     429 (Some RATE_LIMITED))).
Proof.
  intros jsN tlt net now path options new_URL contains request srv key secret g g' evs u k s rl H Hrl Hb.
  destruct (handleSaveSettings_saved _ _ _ _ _ _ _ _ _ _ _ _ _ H)
    as [_ [_ [_ [Hc [Hs [_ Hr]]]]]].
  unfold isConnected in Hc. symmetry in Hc. apply andb_true_iff in Hc as [Hu Hk].
  apply negb_true_iff, String.eqb_neq in Hu, Hk.
  apply apiFetch_blocked; [rewrite Hs; exact Hu | rewrite Hs; exact Hk | rewrite Hr; exact Hrl | exact Hb].
Qed.

Definition rate_limited_gw : Gw :=
  {| cachedSettings := None; cachedRateLimit := Some {| remaining := 0; resetAt := 5000 |};
     storage := sample_store |}.

Lemma handleSaveSettings_keeps_rate_limit_witness :
  let '(g', _, _) := handleSaveSettings Url.parse (fun _ => true) (fun _ => true)
                       "https://other.example.com" "cv_other" None rate_limited_gw in
  apiFetch sample_Number sample_time net_404 0 "/api/vault/status"
    {| method := None; reqBody := None |} g'
  = (fst (getSettings g'), [EvConfigCheck; EvPreflight],
     Throw (APIError ("Rate limit exhausted. Resets at " ++ sample_time (5000 * 1000) ++ ".")
                     429 (Some RATE_LIMITED))).
Proof.
  assert (H : handleSaveSettings Url.parse (fun _ => true) (fun _ => true)
                "https://other.example.com" "cv_other" None rate_limited_gw
    = (clearSettingsCache
         {| cachedSettings := None; cachedRateLimit := Some {| remaining := 0; resetAt := 5000 |};
            storage := {| st_serverUrl := Some "https://other.example.com";
                          st_apiKey := Some "cv_other"; st_encryptionSecret := Some "";
                          st_rateLimitRemaining := None; st_rateLimitReset := None |} |},
       [BgPerm (PermContains "https://other.example.com/*");
        BgStorageSet [("serverUrl", "https://other.example.com"); ("apiKey", "cv_other");
                      ("encryptionSecret", "")]; BgBadgeText ""],
       MSettings "https://other.example.com" "cv_other" "" true)) by reflexivity.
  rewrite H.
  exact (handleSaveSettings_keeps_rate_limit sample_Number sample_time net_404 0 "/api/vault/status"
           {| method := None; reqBody := None |} _ _ _ _ _ _ _ _ _ _ _ _
           {| remaining := 0; resetAt := 5000 |} H eq_refl eq_refl).
Defined.

(** X10: with an API key stored but no server URL, [get_settings] reports
    the default server and [connected = true], while the install-time
    badge shows the "!" warning and every gateway call fails as not
    configured, without a request. *)
Theorem get_settings_default_server_mismatch :
  forall jsN tlt net now path options g key,
  cachedSettings g = None -> st_serverUrl (storage g) = None ->
  st_apiKey (storage g) = Some key -> key <> "" ->
  handleGetSettings g
    = MSettings DEFAULT_serverUrl key (or_empty (st_encryptionSecret (storage g))) true
  /\ onInstalled_badge (storage g) = [BgBadgeText "!"; BgBadgeColor "#dc2626"]
  /\ exists msg, apiFetch jsN tlt net now path options g
       = (fst (getSettings g), [EvConfigCheck], Throw (APIError msg 0 (Some NOT_CONFIGURED))).
Proof.
  intros jsN tlt net now path options g key Hc Hs Hk Hne.
  split; [|split].
  - unfold handleGetSettings. rewrite Hs, Hk. simpl.
    apply String.eqb_neq in Hne. unfold isConnected. rewrite Hne. reflexivity.
  - unfold onInstalled_badge. rewrite Hs. reflexivity.
  - apply apiFetch_unconfigured. left. unfold getSettings. rewrite Hc, Hs. reflexivity.
Qed.

Definition keyonly_gw : Gw :=
  {| cachedSettings := None; cachedRateLimit := None;
     storage := {| st_serverUrl := None; st_apiKey := Some "cv_key"; st_encryptionSecret := None;
                   st_rateLimitRemaining := None; st_rateLimitReset := None |} |}.

Lemma get_settings_default_server_mismatch_witness :
  handleGetSettings keyonly_gw = MSettings DEFAULT_serverUrl "cv_key" "" true
  /\ onInstalled_badge (storage keyonly_gw) = [BgBadgeText "!"; BgBadgeColor "#dc2626"]
  /\ exists msg, apiFetch sample_Number sample_time net_404 0 "/api/vault/status"
                   {| method := None; reqBody := None |} keyonly_gw
       = (fst (getSettings keyonly_gw), [EvConfigCheck], Throw (APIError msg 0 (Some NOT_CONFIGURED))).
Proof.
  assert (Hne : "cv_key" <> "") by discriminate.
  exact (get_settings_default_server_mismatch sample_Number sample_time net_404 0 "/api/vault/status"
           {| method := None; reqBody := None |} keyonly_gw "cv_key" eq_refl eq_refl eq_refl Hne).
Defined.

(** X11: [check_health] only needs a server URL: with an empty API key and
    a server that answers 2xx, it makes one request to
    [/api/vault/status] without any header, answers [reachable = true]
    and clears the badge, while a gateway call in the same state fails
    as not configured without a request. *)
Theorem check_health_ignores_api_key :
  forall jsN tlt net now path options g status st b h1 h2,
  serverUrl (snd (getSettings g)) <> "" -> apiKey (snd (getSettings g)) = "" ->
  res_ok status = true ->
  handleCheckHealth (Resp status st b h1 h2) g
    = (fst (getSettings g),
       [BgNet (EvFetch (strip_trailing_slash (serverUrl (snd (getSettings g))) ++ "/api/vault/status")
                       None [] None); BgBadgeText ""],
       MHealth true)
  /\ exists msg, apiFetch jsN tlt net now path options g
       = (fst (getSettings g), [EvConfigCheck], Throw (APIError msg 0 (Some NOT_CONFIGURED))).
Proof.
  intros jsN tlt net now path options g status st b h1 h2 Hs Hk Hok.
  split; [|apply apiFetch_unconfigured; right; exact Hk].
  unfold handleCheckHealth, probeServer.
  destruct (getSettings g) as [g1 s]. simpl in *.
  apply String.eqb_neq in Hs. rewrite Hs, Hok. reflexivity.
Qed.

Definition nokey_gw : Gw :=
  {| cachedSettings := None; cachedRateLimit := None;
     storage := {| st_serverUrl := Some "https://api.context-vault.com"; st_apiKey := None;
                   st_encryptionSecret := None;
                   st_rateLimitRemaining := None; st_rateLimitReset := None |} |}.

Lemma check_health_ignores_api_key_witness :
  handleCheckHealth (Resp 200 "OK" (JBody 0 None) None None) nokey_gw
    = (fst (getSettings nokey_gw),
       [BgNet (EvFetch (strip_trailing_slash (serverUrl (snd (getSettings nokey_gw)))
                          ++ "/api/vault/status") None [] None); BgBadgeText ""],
       MHealth true)
  /\ exists msg, apiFetch sample_Number sample_time net_404 0 "/api/vault/status"
                   {| method := None; reqBody := None |} nokey_gw
       = (fst (getSettings nokey_gw), [EvConfigCheck], Throw (APIError msg 0 (Some NOT_CONFIGURED))).
Proof.
  assert (Hs : serverUrl (snd (getSettings nokey_gw)) <> "") by discriminate.
  exact (check_health_ignores_api_key sample_Number sample_time net_404 0 "/api/vault/status"
           {| method := None; reqBody := None |} nokey_gw 200 "OK" (JBody 0 None) None None
           Hs eq_refl eq_refl).
Defined.

(** X12: the title of a context-menu capture has at most 83 characters: it
    is the selection itself when that has at most 80 characters, and
    otherwise its first 80 characters followed by ["..."]. *)
Theorem menu_title_bounds : forall s,
  (String.length (menu_title s) <= 83)%nat
  /\ ((String.length s <= 80)%nat -> menu_title s = s)
  /\ ((80 < String.length s)%nat ->
      menu_title s = substring 0 80 s ++ "..." /\ String.length (menu_title s) = 83%nat).
Proof.
  intros s. unfold menu_title.
  destruct (Nat.ltb_spec 80 (String.length s)) as [Hl|Hl].
  - rewrite length_str_app, substring_0_length.
    repeat split; try lia.
    + rewrite Nat.min_l by lia. simpl. lia.
    + rewrite Nat.min_l by lia. reflexivity.
  - rewrite substring_0_all by exact Hl. rewrite append_empty.
    repeat split; try lia.
Qed.

Lemma menu_title_bounds_witness :
  menu_title "0123456789012345678901234567890123456789012345678901234567890123456789012345678901234"
  = "01234567890123456789012345678901234567890123456789012345678901234567890123456789..."
  /\ menu_title "short note" = "short note".
Proof.
  split.
  - exact (proj1 (proj2 (proj2 (menu_title_bounds
      "0123456789012345678901234567890123456789012345678901234567890123456789012345678901234"))
      ltac:(cbn; lia))).
  - exact (proj1 (proj2 (menu_title_bounds "short note")) ltac:(cbn; lia)).
Defined.

(* ------------------------------------------------------------------ *)
(** ** More of the OAuth flow *)

Module OAuthFacts.
Import OAuth.

(** The references [cleanup] manages, and the timers. *)
Definition refs (st : OState) : option nat * option nat * option nat * list nat :=
  (pendingResolve st, pendingReject st, pendingTimeout st, timers st).

Definition refs_ok (r : option nat * option nat * option nat * list nat) : Prop :=
  let '(res, rej, tm, ts) := r in
  res = rej /\ rej = tm /\ (forall h, tm = Some h -> In h ts).

Lemma settle_refs : forall fn v st, refs (settle fn v st) = refs st.
Proof.
  intros [f|] v st; unfold settle; [destruct (is_settled f st)|]; reflexivity.
Qed.

Lemma close_tab_refs : forall t st, refs (close_tab t st) = refs st.
Proof. reflexivity. Qed.

Lemma set_listeners_refs : forall ls st, refs (set_listeners ls st) = refs st.
Proof. reflexivity. Qed.

Lemma cleanup_refs_ok : forall st, refs_ok (refs (cleanup st)).
Proof. intros st. simpl. split; [reflexivity|]. split; [reflexivity|]. discriminate. Qed.

Lemma reject_refs_ok : forall msg st, refs_ok (refs (reject msg st)).
Proof.
  intros msg st. unfold reject. rewrite settle_refs.
  destruct (pendingTabId st); [rewrite close_tab_refs|]; apply cleanup_refs_ok.
Qed.

Lemma handle_refs_ok : forall t u st, refs_ok (refs st) ->
  refs_ok (refs (handleOAuthTabUpdate t u st)).
Proof.
  intros t u st H. unfold handleOAuthTabUpdate.
  destruct (pendingTabId st); [|exact H].
  destruct (negb _); [exact H|]. destruct u as [u|]; [|exact H].
  destruct (String.eqb u ""); [exact H|]. destruct (Url.parse u) as [p|]; [|exact H].
  destruct (_ || _); [exact H|].
  destruct (Url.params_get _ "token") as [[|c s]|];
    rewrite settle_refs, close_tab_refs; apply cleanup_refs_ok.
Qed.

Lemma onRemoved_refs_ok : forall l id st, refs_ok (refs st) ->
  refs_ok (refs (onRemoved l id st)).
Proof.
  intros l id st H. unfold onRemoved.
  destruct (pendingTabId st); [|exact H].
  destruct (negb _); [exact H|].
  destruct (pendingReject (set_listeners _ st)).
  - rewrite settle_refs. apply cleanup_refs_ok.
  - rewrite set_listeners_refs. exact H.
Qed.

Lemma fold_onRemoved_refs_ok : forall ls id st, refs_ok (refs st) ->
  refs_ok (refs (fold_left (fun s l => onRemoved l id s) ls st)).
Proof.
  induction ls as [|l ls IH]; intros id st H; simpl; [exact H|].
  apply IH. apply onRemoved_refs_ok. exact H.
Qed.

Lemma step_refs_ok : forall e st, refs_ok (refs st) -> refs_ok (refs (step e st)).
Proof.
  intros [| tab le | t | id u | id] st H; simpl step.
  - unfold startGoogleOAuth. destruct (pendingTabId st); [exact H|].
    simpl. split; [reflexivity|]. split; [reflexivity|].
    intros h Hh. injection Hh as <-. apply in_or_app. right. left. reflexivity.
  - destruct (Nat.eqb (createCbs st) 0); [exact H|].
    unfold tabs_create_callback. destruct tab as [id|]; [|apply reject_refs_ok].
    destruct (le || Z.eqb id 0); [apply reject_refs_ok|]. exact H.
  - unfold timer_fire. destruct (existsb _ _); [apply reject_refs_ok|exact H].
  - apply handle_refs_ok. exact H.
  - apply fold_onRemoved_refs_ok. exact H.
Qed.

(** X17: in every state the OAuth flow reaches from the initial one, the
    stored [resolve], [reject] and timer handle are set together or
    cleared together, and a stored timer handle is an armed timer. *)
Theorem oauth_refs_invariant : forall es,
  let st := run es init in
  pendingResolve st = pendingReject st /\ pendingReject st = pendingTimeout st
  /\ (forall h, pendingTimeout st = Some h -> In h (timers st)).
Proof.
  intros es. change (refs_ok (refs (run es init))).
  unfold run. assert (H0 : refs_ok (refs init)) by (simpl; split; [reflexivity|split; [reflexivity|discriminate]]).
  revert H0. generalize init. induction es as [|e es IH]; intros st H; simpl; [exact H|].
  apply IH. apply step_refs_ok. exact H.
Qed.

Lemma reject_effect : forall msg st f,
  pendingReject st = Some f -> is_settled f st = false ->
  let st' := reject msg st in
  settled st' = app (settled st) [(f, Rejected msg)]
  /\ closed st' = app (closed st) (match pendingTabId st with Some t => [t] | None => [] end)
  /\ pendingTabId st' = None /\ pendingResolve st' = None /\ pendingReject st' = None
  /\ timers st' = match pendingTimeout st with
                  | Some h => filter (fun x => negb (Nat.eqb x h)) (timers st)
                  | None => timers st end
  /\ listeners st' = listeners st /\ started st' = started st.
Proof.
  intros msg st f Hf Hs. unfold reject. rewrite Hf.
  destruct (pendingTabId st) as [t|]; unfold settle;
    [replace (is_settled f (close_tab t (cleanup st))) with false by (symmetry; exact Hs)
    |replace (is_settled f (cleanup st)) with false by (symmetry; exact Hs)];
    repeat split; simpl; rewrite ?app_nil_r; reflexivity.
Qed.

(** X18: when the armed time-out of a pending flow fires, the flow's
    promise is rejected with "Sign-in timed out. Please try again.", its
    tab (if already known) is closed, the timer is disarmed and the
    pending references are cleared, so that a new sign-in is accepted. *)
Theorem timer_fire_times_out : forall st h f,
  pendingTimeout st = Some h -> In h (timers st) ->
  pendingReject st = Some f -> is_settled f st = false ->
  let st' := step (TimerFire h) st in
  settled st' = app (settled st) [(f, Rejected "Sign-in timed out. Please try again.")]
  /\ closed st' = app (closed st) (match pendingTabId st with Some t => [t] | None => [] end)
  /\ pendingTabId st' = None /\ pendingReject st' = None
  /\ ~ In h (timers st')
  /\ started (step Start st') = app (started st') [Return (fresh st')].
Proof.
  intros st h f Ht Hin Hf Hs. simpl step. unfold timer_fire.
  replace (existsb (Nat.eqb h) (timers st)) with true
    by (symmetry; apply existsb_exists; exists h; split; [exact Hin | apply Nat.eqb_refl]).
  destruct (reject_effect "Sign-in timed out. Please try again."
              (set_timers (filter (fun x => negb (Nat.eqb x h)) (timers st)) st) f Hf Hs)
    as [H1 [H2 [H3 [_ [H5 [H6 _]]]]]].
  repeat split.
  - exact H1.
  - exact H2.
  - exact H3.
  - exact H5.
  - rewrite H6. simpl. rewrite Ht. intros Hin'.
    apply filter_In in Hin' as [_ Hn]. rewrite Nat.eqb_refl in Hn. discriminate.
  - unfold startGoogleOAuth. rewrite H3. reflexivity.
Qed.

Lemma timer_fire_times_out_witness :
  let st := run [Start; CreateDone (Some 7%Z) false] init in
  let st' := step (TimerFire 0) st in
  settled st' = app (settled st) [(0%nat, Rejected "Sign-in timed out. Please try again.")]
  /\ closed st' = app (closed st) (match pendingTabId st with Some t => [t] | None => [] end)
  /\ pendingTabId st' = None /\ pendingReject st' = None
  /\ ~ In 0%nat (timers st')
  /\ started (step Start st') = app (started st') [Return (fresh st')].
Proof.
  apply (timer_fire_times_out (run [Start; CreateDone (Some 7%Z) false] init) 0 0);
    vm_compute; auto.
Defined.



Lemma fold_onRemoved_idle : forall ls id st,
  pendingTabId st = None -> fold_left (fun s l => onRemoved l id s) ls st = st.
Proof.
  induction ls as [|l ls IH]; intros id st H; simpl; [reflexivity|].
  unfold onRemoved at 2. rewrite H. apply IH. exact H.
Qed.

(** X20: when the user closes the tracked sign-in tab of a pending flow,
    the flow's promise is rejected with "Sign-in cancelled.", its timer
    is disarmed, the references are cleared, nothing else is closed, and
    exactly one [onRemoved] listener is deregistered: the first one
    registered, which after an earlier resolved or timed-out flow is that
    flow's stale listener rather than the current one. *)
Theorem tab_removed_cancels : forall st t f l0 ls,
  pendingTabId st = Some t -> pendingReject st = Some f -> is_settled f st = false ->
  listeners st = l0 :: ls ->
  let st' := step (TabRemoved t) st in
  settled st' = app (settled st) [(f, Rejected "Sign-in cancelled.")]
  /\ pendingTabId st' = None /\ pendingReject st' = None
  /\ timers st' = match pendingTimeout st with
                  | Some h => filter (fun x => negb (Nat.eqb x h)) (timers st)
                  | None => timers st end
  /\ listeners st' = filter (fun l => negb (Nat.eqb l l0)) (l0 :: ls)
  /\ closed st' = closed st.
Proof.
  intros st t f l0 ls Ht Hf Hs Hl. simpl step. rewrite Hl. simpl fold_left.
  unfold onRemoved at 2. rewrite Ht, Z.eqb_refl. simpl negb. cbv iota.
  rewrite fold_onRemoved_idle.
  - simpl. rewrite Hf. unfold settle.
    replace (is_settled f _) with false by (symmetry; exact Hs).
    repeat split; simpl; rewrite ?Hl; reflexivity.
  - simpl. rewrite Hf. unfold settle.
    replace (is_settled f _) with false by (symmetry; exact Hs). reflexivity.
Qed.

Lemma tab_removed_cancels_witness :
  let st := run [Start; CreateDone (Some 7%Z) false; TabUpdated 7 (Some callback_url);
                 Start; CreateDone (Some 9%Z) false] init in
  let st' := step (TabRemoved 9) st in
  settled st' = app (settled st) [(2%nat, Rejected "Sign-in cancelled.")]
  /\ pendingTabId st' = None /\ pendingReject st' = None
  /\ timers st' = match pendingTimeout st with
                  | Some h => filter (fun x => negb (Nat.eqb x h)) (timers st)
                  | None => timers st end
  /\ listeners st' = filter (fun l => negb (Nat.eqb l 1)) (1 :: [3])%nat
  /\ closed st' = closed st.
Proof.
  apply (tab_removed_cancels _ 9 2 1 [3%nat]); vm_compute; reflexivity.
Defined.

Definition blocked (t : Z) (st : OState) : Prop :=
  pendingTabId st = Some t /\ pendingReject st = None /\ timers st = [] /\ createCbs st = 0%nat.

Lemma fold_onRemoved_blocked : forall ls id t st,
  blocked t st -> blocked t (fold_left (fun s l => onRemoved l id s) ls st).
Proof.
  induction ls as [|l ls IH]; intros id t st H; simpl; [exact H|].
  apply IH. destruct H as [Ht [Hr [Hm Hc]]]. unfold onRemoved. rewrite Ht.
  destruct (negb (Z.eqb id t)); [repeat split; assumption|].
  simpl. rewrite Hr. repeat split; assumption.
Qed.

Lemma step_blocked : forall e t st,
  (forall u, e <> TabUpdated t u) -> blocked t st -> blocked t (step e st).
Proof.
  intros [| tab le | x | id u | id] t st He H; simpl step.
  - destruct H as [Ht [Hr [Hm Hc]]]. unfold startGoogleOAuth. rewrite Ht.
    repeat split; assumption.
  - destruct H as [Ht [Hr [Hm Hc]]]. rewrite Hc. repeat split; assumption.
  - unfold timer_fire. destruct H as [Ht [Hr [Hm Hc]]]. rewrite Hm. repeat split; assumption.
  - destruct (Z.eq_dec id t) as [->|Hid]; [exfalso; exact (He u eq_refl)|].
    rewrite (handle_other_tab st t id u (proj1 H) Hid). exact H.
  - apply fold_onRemoved_blocked. exact H.
Qed.

(** X21: a tracked sign-in tab whose flow was already rejected (its
    time-out fired before [chrome.tabs.create] called back) blocks
    sign-in for good once no timer or creation callback is left: closing
    that tab does not clear [pendingTabId], since [onRemoved] only cleans
    up when a [reject] is stored, and after any sequence of events in
    which that tab does not navigate, [startGoogleOAuth] still fails with
    "Sign-in already in progress". *)
Theorem oauth_blocked_forever : forall st t es,
  pendingTabId st = Some t -> pendingReject st = None -> timers st = [] ->
  createCbs st = 0%nat ->
  (forall u, ~ In (TabUpdated t u) es) ->
  pendingTabId (run es st) = Some t
  /\ started (step Start (run es st))
     = app (started (run es st))
           [Throw (PlainError "Sign-in already in progress. Please complete or close the existing sign-in tab.")].
Proof.
  intros st t es Ht Hr Hm Hc Hes.
  assert (Hb : blocked t (run es st)).
  { unfold run. assert (H0 : blocked t st) by (repeat split; assumption).
    revert st H0 Ht Hr Hm Hc. induction es as [|e es IH]; intros st H0 Ht Hr Hm Hc; simpl; [exact H0|].
    assert (He : forall u, e <> TabUpdated t u)
      by (intros u Heq; apply (Hes u); left; exact Heq).
    assert (H1 : blocked t (step e st)) by (apply step_blocked; assumption).
    destruct H1 as [H1t [H1r [H1m H1c]]].
    apply IH; [intros u Hin; apply (Hes u); right; exact Hin | repeat split; assumption
              | assumption | assumption | assumption | assumption]. }
  destruct Hb as [Hbt _]. split; [exact Hbt|].
  simpl step. unfold startGoogleOAuth. rewrite Hbt. reflexivity.
Qed.

Lemma oauth_blocked_forever_witness :
  let st := run [Start; TimerFire 0; CreateDone (Some 7%Z) false; TabRemoved 7] init in
  let es := [Start; TabRemoved 7; TimerFire 0; CreateDone (Some 8%Z) false] in
  pendingTabId (run es st) = Some 7%Z
  /\ started (step Start (run es st))
     = app (started (run es st))
           [Throw (PlainError "Sign-in already in progress. Please complete or close the existing sign-in tab.")].
Proof.
  apply oauth_blocked_forever; [vm_compute; reflexivity.. |].
  intros u H. simpl in H. repeat (destruct H as [H|H]; [discriminate H|]). exact H.
Defined.

End OAuthFacts.
